(** * Adaptive bulk-ingestion controller of the ILM rollover harness

    A shallow embedding of the alias-rollover scripts
    [ag_es_centralized_ilm_alias_rollover_v3.py] and
    [ag_es_centralized_ilm_alias_rollover_v4.py] (and of the bulk sender of
    [ag_es_centralized_ilm_datastream.py]), with the properties of the
    batch sizer, the encoder, the transport, the write-index resolution,
    the limit discovery and the ingestion loop.

    Conventions.  Python [int] is [Z]; [//] on [int] is [Z.div] (both floor,
    the remainder taking the sign of the divisor).  Python [float] is IEEE
    binary64, modelled by [SpecFloat] at precision 53 and [emax] 1024.  A
    Python [str] is a [string] whose characters are code points below 256.
    A call that may raise returns a [result].  What the HTTP server, the
    clock and the library functions answer is an explicit argument. *)

From Stdlib Require Import ZArith List String Ascii QArith Lia Bool.
From Stdlib Require Import Strings.Byte.
From Corelib Require Import SpecFloat.
Import ListNotations.

Open Scope string_scope.
Open Scope Z_scope.

#[local] Set Warnings "-register-all".

(** ** Python exceptions and results *)

(** What a [RuntimeError] of the scripts reports: the f-string of its message,
    kept as data. *)
Inductive failure : Type :=
| HttpStatus (method path : string) (status : Z) (body800 : string)
| BulkStatus (status : Z) (body800 : string)
| WriteIndexNotFound (alias : string)
| BulkItemErrors.

Inductive exn : Type :=
| RuntimeError (what : failure)
| ValueError
| AttributeError
| OverflowError
| ZeroDivisionError
| StructError
| ConnectionError
| Timeout
| OtherException (name : string).

Inductive result (A : Type) : Type :=
| Return (a : A)
| Raise (e : exn).

Arguments Return {A} a.
Arguments Raise {A} e.

Definition bind {A B : Type} (r : result A) (k : A -> result B) : result B :=
  match r with
  | Return a => k a
  | Raise e => Raise e
  end.

Notation "x <- r ;; k" := (bind r (fun x => k))
  (at level 61, r at next level, right associativity).

Definition returns {A : Type} (r : result A) : bool :=
  match r with Return _ => true | Raise _ => false end.

(** ** Binary64 arithmetic used by the sizer *)

Module Float.

Definition prec : Z := 53.
Definition emax : Z := 1024.

(** [float(n)] for an [int]: round to nearest even, [OverflowError] when the
    rounded value is not finite. *)
Definition of_int (n : Z) : result spec_float :=
  match binary_normalize prec emax n 0 false with
  | S754_infinity _ => Raise OverflowError
  | x => Return x
  end.

Definition mul (x y : spec_float) : spec_float := SFmul prec emax x y.

(** [int(x)] for a [float]: truncation toward zero. *)
Definition to_int (x : spec_float) : result Z :=
  match x with
  | S754_zero _ => Return 0
  | S754_finite s m e =>
      Return (cond_Zopp s (if 0 <=? e then Z.shiftl (Zpos m) e
                           else Z.shiftr (Zpos m) (- e)))
  | S754_infinity _ => Raise OverflowError
  | S754_nan => Raise ValueError
  end.

(** The literal [0.85]: the binary64 number nearest to 17/20, which is
    7656119366529843 * 2^-53. *)
Definition lit_0_85 : spec_float := S754_finite false 7656119366529843 (-53).

(** The right shift [binary_round_aux] applies to a mantissa [m] at exponent
    [e] to bring it to 53 bits. *)
Definition shift1 (m e : Z) : Z :=
  Z.max 0 (fexp prec emax (Zdigits2 m + e) - e).

(** What the round and sticky bits say about a remainder [rem] below the
    weight [w] of the digits shifted out. *)
Definition located (r s : bool) (rem w : Z) : Prop :=
  match r, s with
  | false, false => rem = 0
  | false, true => 0 < 2 * rem < w
  | true, false => 2 * rem = w
  | true, true => w < 2 * rem
  end.

(** [mrs] is [m] shifted right by [k] bits, with its round and sticky bits. *)
Definition shifted (m k : Z) (mrs : shr_record) : Prop :=
  shr_m mrs = m / 2 ^ k
  /\ located (shr_r mrs) (shr_s mrs) (m mod 2 ^ k) (2 ^ k).

End Float.

(** ** Batch sizer *)

Definition SAFETY_MARGIN : spec_float := Float.lit_0_85.
Definition CAP_DOCS_PER_BULK : Z := 40.

(** [int(max_bytes * SAFETY_MARGIN)] *)
Definition budget_of (max_bytes : Z) : result Z :=
  f <- Float.of_int max_bytes ;;
  Float.to_int (Float.mul f SAFETY_MARGIN).

Definition floordiv (a b : Z) : result Z :=
  if b =? 0 then Raise ZeroDivisionError else Return (a / b).

Definition docs_per_batch (avg_doc_bytes max_bytes : Z) : result Z :=
  let per_doc := avg_doc_bytes + 64 in
  budget <- budget_of max_bytes ;;
  q <- floordiv budget per_doc ;;
  Return (Z.max 1 q).

(** The sizing done at the start of [run_ingest_until_rollovers]:
    [dpb = min(docs_per_batch(avg_doc_bytes, max_content), 40)]. *)
Definition initial_dpb (avg_doc_bytes max_content : Z) : result Z :=
  d <- docs_per_batch avg_doc_bytes max_content ;;
  Return (Z.min d CAP_DOCS_PER_BULK).

(** The byte bound of the sizer, [item_count * (avg + 64) <= ceiling * 0.85],
    over the rationals (0.85 = 17/20). *)
Definition within_margin (item_count avg ceiling : Z) : bool :=
  20 * (item_count * (avg + 64)) <=? 17 * ceiling.

(** [len(base64.b64encode(os.urandom(RAW_PAYLOAD_BYTES)))] *)
Definition RAW_PAYLOAD_BYTES : Z := 2 * 1024 * 1024.
Definition b64_len (n : Z) : Z := 4 * ((n + 2) / 3).

(** ** Strings *)

(** [s.endswith(suffix)] *)
Definition endswith (s suffix : string) : bool :=
  let n := String.length s in
  let k := String.length suffix in
  (k <=? n)%nat && String.eqb (substring (n - k) k s) suffix.

(** [s[:-k]] for a positive [k] *)
Definition drop_last (k : nat) (s : string) : string :=
  substring 0 (String.length s - k) s.

(** ** JSON documents as [json.loads] returns them

    A [dict] is the list of its items in insertion order (keys distinct). *)

Inductive json : Type :=
| JNull
| JBool (b : bool)
| JInt (n : Z)
| JFloat (x : spec_float)
| JStr (s : string)
| JArr (items : list json)
| JObj (items : list (string * json)).

(** Python truth value of a decoded JSON value. *)
Definition truthy (v : json) : bool :=
  match v with
  | JNull => false
  | JBool b => b
  | JInt n => negb (n =? 0)
  | JFloat (S754_zero _) => false
  | JFloat _ => true
  | JStr s => negb (String.eqb s "")
  | JArr items => match items with [] => false | _ => true end
  | JObj items => match items with [] => false | _ => true end
  end.

Fixpoint assoc (k : string) (items : list (string * json)) : option json :=
  match items with
  | [] => None
  | (k', v) :: rest => if String.eqb k k' then Some v else assoc k rest
  end.

(** [d.get(k, default)]; only a [dict] has [get]. *)
Definition dict_get (d : json) (k : string) (default : json) : result json :=
  match d with
  | JObj items =>
      Return (match assoc k items with Some v => v | None => default end)
  | _ => Raise AttributeError
  end.

(** [d.items()] *)
Definition dict_items (d : json) : result (list (string * json)) :=
  match d with
  | JObj items => Return items
  | _ => Raise AttributeError
  end.

Definition empty_dict : json := JObj [].

(** ** HTTP as the scripts see it *)

Record response : Type := mkResponse {
  status_code : Z;
  text : string;
  (** [r.json()]: the decoded body, or the decoder's [ValueError] *)
  json_body : result json
}.

(** What a call of [S.request] / [S.post] does: it raises, or it returns a
    response (after the session's own retries). *)
Inductive http_outcome : Type :=
| HttpRaises (e : exn)
| HttpResponse (r : response).

Definition ALIAS : string := "bench-rollover".

(** [req(method, path)] *)
Definition req (method path : string) (o : http_outcome) : result response :=
  match o with
  | HttpRaises e => Raise e
  | HttpResponse r =>
      if 300 <=? status_code r
      then Raise (RuntimeError
                    (HttpStatus method path (status_code r)
                                (substring 0 800 (text r))))
      else Return r
  end.

(** ** Rotation monitor *)

(** The [for idx, meta in data.items()] loop of [get_write_index]. *)
Fixpoint scan_write_index (alias : string) (items : list (string * json))
  : result string :=
  match items with
  | [] => Raise (RuntimeError (WriteIndexNotFound alias))
  | (idx, meta) :: rest =>
      aliases <- dict_get meta "aliases" empty_dict ;;
      entry <- dict_get aliases alias empty_dict ;;
      flag <- dict_get entry "is_write_index" JNull ;;
      if truthy flag then Return idx else scan_write_index alias rest
  end.

Definition get_write_index (alias : string) (o : http_outcome)
  : result string :=
  r <- req "GET" ("/_alias/" ++ alias) o ;;
  data <- json_body r ;;
  items <- dict_items data ;;
  scan_write_index alias items.

(** The truth value of [meta.get("aliases", {}).get(alias, {})
    .get("is_write_index")] for a well-shaped entry; [false] when the chain
    raises. *)
Definition carries_flag (alias : string) (meta : json) : bool :=
  match (aliases <- dict_get meta "aliases" empty_dict ;;
         entry <- dict_get aliases alias empty_dict ;;
         dict_get entry "is_write_index" JNull) with
  | Return flag => truthy flag
  | Raise _ => false
  end.

(** The chain of [get]s does not raise on this entry. *)
Definition well_shaped (alias : string) (meta : json) : bool :=
  returns (aliases <- dict_get meta "aliases" empty_dict ;;
           entry <- dict_get aliases alias empty_dict ;;
           dict_get entry "is_write_index" JNull).

Definition flagged (alias : string) (items : list (string * json))
  : list string :=
  map fst (filter (fun im => carries_flag alias (snd im)) items).

(** ** Limit discovery *)

(** A decimal reader used to run examples.  On a string made of an optional
    sign and ASCII digits it returns what Python's [int] returns.  Python's
    [int] accepts more (surrounding blanks, an underscore between digits,
    decimal digits outside ASCII), so the functions below take the builtin
    as an argument. *)
Definition digit_of (c : ascii) : option Z :=
  let n := Z.of_N (N_of_ascii c) in
  if (48 <=? n) && (n <=? 57) then Some (n - 48) else None.

Fixpoint digits_value (acc : Z) (s : string) : option Z :=
  match s with
  | EmptyString => Some acc
  | String c rest =>
      match digit_of c with
      | Some d => digits_value (10 * acc + d) rest
      | None => None
      end
  end.

Definition unsigned_decimal (s : string) : option Z :=
  match s with
  | EmptyString => None
  | _ => digits_value 0 s
  end.

Definition decimal_int (s : string) : option Z :=
  match s with
  | String "-" rest => option_map Z.opp (unsigned_decimal rest)
  | String "+" rest => unsigned_decimal rest
  | _ => unsigned_decimal s
  end.

Definition MiB : Z := 1024 * 1024.

Section Limits.

(** The builtin [int] on a [str]: [None] stands for its [ValueError]. *)
Variable py_int : string -> option Z.

Definition int_of_str (s : string) : result Z :=
  match py_int s with
  | Some n => Return n
  | None => Raise ValueError
  end.

(** The two tests every branch of the discovery repeats:
    [isinstance(val, str) and val.endswith("mb")], then [... endswith("b")].
    [None] when neither [return] is taken. *)
Definition size_of_setting (val : json) : option (result Z) :=
  match val with
  | JStr s =>
      if endswith s "mb"
      then Some (n <- int_of_str (drop_last 2 s) ;; Return (n * 1024 * 1024))
      else if endswith s "b"
      then Some (int_of_str (drop_last 1 s))
      else None
  | _ => None
  end.

End Limits.

Definition SETTINGS_PATH : string := "/_cluster/settings?include_defaults=true".

(** *** The discovery of [ag_es_centralized_ilm_alias_rollover_v3.py] *)
Module LimitsV3.
Section WithInt.
Variable py_int : string -> option Z.

(** The local helper [find(path_list, dct)]. *)
Fixpoint find (path_list : list string) (dct : json) : result json :=
  match path_list with
  | [] => Return dct
  | p :: rest => cur <- dict_get dct p empty_dict ;; find rest cur
  end.

Definition setting_at (root : string) (js : json) : result json :=
  section <- dict_get js root empty_dict ;;
  find ["http"; "max_content_length"] section.

(** [for root in ("persistent", "transient")], then what follows the loop. *)
Fixpoint scan_roots (js : json) (roots : list string) (after : result Z)
  : result Z :=
  match roots with
  | [] => after
  | root :: rest =>
      val <- setting_at root js ;;
      match size_of_setting py_int val with
      | Some r => r
      | None => scan_roots js rest after
      end
  end.

Definition limit_of_settings (js : json) : result Z :=
  scan_roots js ["persistent"; "transient"]
    (val <- setting_at "defaults" js ;;
     match size_of_setting py_int val with
     | Some r => r
     | None => Return (100 * 1024 * 1024)
     end).

Definition get_http_max_content_length_bytes (o : http_outcome) : result Z :=
  r <- req "GET" SETTINGS_PATH o ;;
  js <- json_body r ;;
  limit_of_settings js.

End WithInt.
End LimitsV3.

(** *** The discovery of [ag_es_centralized_ilm_alias_rollover_v4.py] *)
Module LimitsV4.
Section WithInt.
Variable py_int : string -> option Z.

(** [js.get(root, {}).get("http", {}).get("max_content_length", default)] *)
Definition setting_at (root : string) (default : json) (js : json)
  : result json :=
  section <- dict_get js root empty_dict ;;
  http <- dict_get section "http" empty_dict ;;
  dict_get http "max_content_length" default.

Fixpoint scan_roots (js : json) (roots : list string) (after : result Z)
  : result Z :=
  match roots with
  | [] => after
  | root :: rest =>
      v <- setting_at root JNull js ;;
      match size_of_setting py_int v with
      | Some r => r
      | None => scan_roots js rest after
      end
  end.

Definition limit_of_settings (js : json) : result Z :=
  scan_roots js ["persistent"; "transient"]
    (v <- setting_at "defaults" (JStr "100mb") js ;;
     match size_of_setting py_int v with
     | Some r => r
     | None => Return (100 * 1024 * 1024)
     end).

Definition get_http_max_content_length_bytes (o : http_outcome) : result Z :=
  r <- req "GET" SETTINGS_PATH o ;;
  js <- json_body r ;;
  limit_of_settings js.

End WithInt.
End LimitsV4.

(** ** Encoder *)

Definition dq : string := String (ascii_of_N 34) EmptyString.
Definition nl : string := String (ascii_of_N 10) EmptyString.
Definition quoted (s : string) : string := dq ++ s ++ dq.

Definition hex_digit (n : N) : ascii :=
  if (n <? 10)%N then ascii_of_N (48 + n) else ascii_of_N (87 + n).

(** One character under [json.dumps] with its default [ensure_ascii]: the
    two-character escapes, a [\u00xx] escape for every other character outside
    [' '..'~'], and the character itself otherwise. *)
Definition escape_char (c : ascii) : string :=
  let n := N_of_ascii c in
  if (n =? 34)%N then "\" ++ dq
  else if (n =? 92)%N then "\\"
  else if (n =? 10)%N then "\n"
  else if (n =? 13)%N then "\r"
  else if (n =? 9)%N then "\t"
  else if (n =? 8)%N then "\b"
  else if (n =? 12)%N then "\f"
  else if ((n <? 32) || (126 <? n))%N
  then "\u00" ++ String (hex_digit (n / 16)) (String (hex_digit (n mod 16)) "")
  else String c "".

Fixpoint escape (s : string) : string :=
  match s with
  | EmptyString => EmptyString
  | String c rest => escape_char c ++ escape rest
  end.

(** [json.dumps(s)] for a [str] *)
Definition json_dumps_str (s : string) : string := quoted (escape s).

Definition action_line : string := "{" ++ quoted "index" ++ ":{}}".

(** [json.dumps({...}, separators=(",", ":"))] of the document *)
Definition source_line (payload : string) : string :=
  "{" ++ quoted "@timestamp" ++ ":" ++ quoted "2025-11-05T12:00:00Z"
  ++ "," ++ quoted "service.name" ++ ":" ++ quoted "bench"
  ++ "," ++ quoted "log.level" ++ ":" ++ quoted "info"
  ++ "," ++ quoted "message" ++ ":" ++ json_dumps_str payload ++ "}".

(** The list [lines] after [range(n)] rounds of the two [append]s. *)
Fixpoint bulk_lines (payload : string) (n : nat) : list string :=
  match n with
  | O => []
  | S k => (bulk_lines payload k ++ [action_line; source_line payload])%list
  end.

Definition bulk_ndjson (payload : string) (n : Z) : string :=
  String.concat nl (bulk_lines payload (Z.to_nat n)) ++ nl.

Definition byte_of_Z (z : Z) : byte :=
  byte_of_ascii (ascii_of_N (Z.to_N (z mod 256))).

(** [s.encode("utf-8")] for code points below 256 *)
Definition utf8_char (c : ascii) : list byte :=
  let n := Z.of_N (N_of_ascii c) in
  if n <? 128 then [byte_of_ascii c]
  else [byte_of_Z (192 + n / 64); byte_of_Z (128 + n mod 64)].

Fixpoint utf8 (s : string) : list byte :=
  match s with
  | EmptyString => []
  | String c rest => (utf8_char c ++ utf8 rest)%list
  end.

(** Four bytes, least significant first. *)
Definition le32 (v : Z) : list byte :=
  [byte_of_Z v; byte_of_Z (v / 2 ^ 8); byte_of_Z (v / 2 ^ 16);
   byte_of_Z (v / 2 ^ 24)].

(** [struct.pack("<L", v)], which [gzip]'s [write32u] calls *)
Definition write32u (v : Z) : result (list byte) :=
  if (0 <=? v) && (v <? 2 ^ 32) then Return (le32 v) else Raise StructError.

Section Gzip.

(** [zlib]: the raw deflate stream of a whole input at level 9, and the
    checksum, both functions of the input alone. *)
Variable deflate : list byte -> list byte.
Variable crc32 : list byte -> Z.

(** The member header [GzipFile] writes when it is opened for writing on a
    file object without a name and without [mtime]: magic, method 8, flags 0,
    the clock's second, the level-9 marker, OS 255. *)
Definition gzip_header (clock_secs : Z) : result (list byte) :=
  stamp <- write32u clock_secs ;;
  Return ([x1f; x8b; x08; x00] ++ stamp ++ [x02; xff])%list.

Definition gzip_trailer (data : list byte) : result (list byte) :=
  crc <- write32u (crc32 data) ;;
  size <- write32u (Z.of_nat (List.length data) mod 2 ^ 32) ;;
  Return (crc ++ size)%list.

(** [gzip_bytes(s)], run while [int(time.time())] is [clock_secs]. *)
Definition gzip_bytes (clock_secs : Z) (s : string) : result (list byte) :=
  let data := utf8 s in
  header <- gzip_header clock_secs ;;
  trailer <- gzip_trailer data ;;
  Return (header ++ deflate data ++ trailer)%list.

(** The encoder as the loop uses it: [gzip_bytes(bulk_ndjson(payload, n))]. *)
Definition encode (clock_secs : Z) (payload : string) (n : Z)
  : result (list byte) :=
  gzip_bytes clock_secs (bulk_ndjson payload n).

End Gzip.

(** ** What the run does to the outside *)

(** The lines the run prints, as data. *)
Inductive message : Type :=
| ItemErrorsPresent
| Shrinking (dpb : Z)
| RolloverSeen (count : Z) (old new : string)
| Note (e : exn)
| TargetReached
| TimeCapReached
| Progress (batches dpb : Z)
| SizingReport (max_content avg_doc_bytes dpb : Z).

(** The requests, pauses and prints of a run, in order.  [PostBulk] is the
    bulk [POST] of [ndjson], gzipped, to the alias; [GetAlias] is the alias
    [GET] with what [get_write_index] made of the reply; [PutSettings index on]
    is the [PUT] of [settings_body on] made by [set_fast(index, on)]. *)
Inductive effect : Type :=
| PostBulk (alias : string) (docs : Z) (ndjson : string)
| GetAlias (alias : string) (resolved : result string)
| PutSettings (index : string) (fast : bool)
| EnsureManaged (index : string)
| Sleep (seconds : Q)
| Print (m : message).

(** ** Transport *)

Definition SHRINK_STATUSES : list Z := [413; 429; 502; 503; 504].

Definition status_in (s : Z) (l : list Z) : bool := existsb (Z.eqb s) l.

(** [post_bulk_with_adapt(alias, ndjson, docs_in_batch)], given what [S.post]
    does with the compressed body; the prints it makes and its outcome. *)
Definition post_bulk_with_adapt (o : http_outcome) (docs_in_batch : Z)
  : list effect * result Z :=
  match o with
  | HttpRaises ConnectionError => ([], Return (-1))
  | HttpRaises Timeout => ([], Return (-1))
  | HttpRaises e => ([], Raise e)
  | HttpResponse r =>
      if 300 <=? status_code r then
        if status_in (status_code r) SHRINK_STATUSES
        then ([], Return (-1))
        else ([], Raise (RuntimeError (BulkStatus (status_code r)
                                         (substring 0 800 (text r)))))
      else
        match json_body r with
        | Raise e => ([], Raise e)
        | Return js =>
            match dict_get js "errors" JNull with
            | Raise e => ([], Raise e)
            | Return flag =>
                if truthy flag
                then ([Print ItemErrorsPresent], Return docs_in_batch)
                else ([], Return docs_in_batch)
            end
        end
  end.

(** The sender of [ag_es_centralized_ilm_datastream.py]. *)
Module DataStream.

Definition post_bulk (o : http_outcome) : result unit :=
  match o with
  | HttpRaises e => Raise e
  | HttpResponse r =>
      if 300 <=? status_code r
      then Raise (RuntimeError (BulkStatus (status_code r)
                                  (substring 0 800 (text r))))
      else
        js <- json_body r ;;
        flag <- dict_get js "errors" JNull ;;
        if truthy flag then Raise (RuntimeError BulkItemErrors)
        else Return tt
  end.

End DataStream.

(** ** Target speed controller *)

Definition settings_path (index : string) : string :=
  "/" ++ index ++ "/_settings".

(** The [settings] dictionary of [set_fast]. *)
Definition settings_body (on : bool) : json :=
  if on
  then JObj [("index", JObj [("refresh_interval", JStr "-1");
                             ("translog.durability", JStr "async")])]
  else JObj [("index", JObj [("refresh_interval", JStr "30s");
                             ("translog.durability", JStr "request")])].

(** [set_fast(index, on)], given what the [PUT] does. *)
Definition set_fast (index : string) (on : bool) (o : http_outcome)
  : result unit :=
  _ <- req "PUT" (settings_path index) o ;; Return tt.

(** [try: set_fast(index, on)] / [except Exception as e: print("note:", e)] *)
Definition try_set_fast (index : string) (on : bool) (o : http_outcome)
  : list effect :=
  match set_fast index on o with
  | Return _ => [PutSettings index on]
  | Raise e => [PutSettings index on; Print (Note e)]
  end.

(** ** Ingestion loop *)

(** The constants in which the two scripts differ, and whether the script
    calls [ensure_index_is_managed] (v4 only). *)
Record config : Type := mkConfig {
  TARGET_ROLLOVERS : Z;
  MAX_MINUTES : Z;
  ILM_POLL_SECS : Z;
  manages : bool
}.

Definition v3 : config := mkConfig 3 60 5 false.
Definition v4 : config := mkConfig 5 60 5 true.

(** The local variables of [run_ingest_until_rollovers] that the loop reads
    and writes.  Clock readings are rationals. *)
Record state : Type := mkState {
  dpb : Z;
  write_idx : string;
  rollovers : Z;
  last_poll : Q;
  batches : Z;
  start_ts : Q
}.

(** What the outside answers during one pass of [while True], should the
    pass ask: the bulk [POST], [time.time()], the alias [GET], the two
    settings [PUT]s and (v4) [ensure_index_is_managed(current)]. *)
Record answers : Type := mkAnswers {
  bulk_answer : http_outcome;
  clock : Q;
  alias_answer : http_outcome;
  restore_answer : http_outcome;
  managed_answer : result unit;
  speedup_answer : http_outcome
}.

Inductive control : Type :=
| Continue (st : state)
| Break (st : state)
| Raised (e : exn).

(** Assignments to the loop's variables. *)
Definition set_dpb (d : Z) (st : state) : state :=
  mkState d (write_idx st) (rollovers st) (last_poll st) (batches st)
          (start_ts st).

Definition count_batch (st : state) : state :=
  mkState (dpb st) (write_idx st) (rollovers st) (last_poll st)
          (batches st + 1) (start_ts st).

Definition count_rollover (st : state) : state :=
  mkState (dpb st) (write_idx st) (rollovers st + 1) (last_poll st)
          (batches st) (start_ts st).

Definition set_write_idx (idx : string) (st : state) : state :=
  mkState (dpb st) idx (rollovers st) (last_poll st) (batches st)
          (start_ts st).

Definition set_last_poll (now : Q) (st : state) : state :=
  mkState (dpb st) (write_idx st) (rollovers st) now (batches st)
          (start_ts st).

Definition Qgtb (a b : Q) : bool := negb (Qle_bool a b).

(** The end of a pass: the time cap, then the progress line. *)
Definition cap_and_progress (cfg : config) (now : Q) (st : state)
  : list effect * control :=
  if Qgtb ((now - start_ts st) / 60) (inject_Z (MAX_MINUTES cfg))
  then ([Print TimeCapReached], Break st)
  else if batches st mod 10 =? 0
  then ([Print (Progress (batches st) (dpb st))], Continue st)
  else ([], Continue st).

(** The body of [if current != write_idx:], then [last_poll = now] and the
    end of the pass when the loop goes on. *)
Definition on_rollover (cfg : config) (now : Q) (st : state) (a : answers)
  (current : string) : list effect * control :=
  let st1 := count_rollover st in
  let fx1 := (Print (RolloverSeen (rollovers st1) (write_idx st) current)
              :: try_set_fast (write_idx st) false (restore_answer a))%list in
  let fx2 := (fx1 ++ (if manages cfg then [EnsureManaged current] else []))%list in
  match (if manages cfg then managed_answer a else Return tt) with
  | Raise e => (fx2, Raised e)
  | Return _ =>
      let fx3 := (fx2 ++ try_set_fast current true (speedup_answer a))%list in
      let st2 := set_write_idx current st1 in
      if TARGET_ROLLOVERS cfg <=? rollovers st2
      then ((fx3 ++ [Print TargetReached])%list, Break st2)
      else
        let (fx4, c) := cap_and_progress cfg now (set_last_poll now st2) in
        ((fx3 ++ fx4)%list, c)
  end.

(** The body of [if now - last_poll >= ILM_POLL_SECS:] and the end of the
    pass. *)
Definition poll (cfg : config) (now : Q) (st : state) (a : answers)
  : list effect * control :=
  let resolved := get_write_index ALIAS (alias_answer a) in
  match resolved with
  | Raise e => ([GetAlias ALIAS resolved], Raised e)
  | Return current =>
      let (fx, c) :=
        if negb (String.eqb current (write_idx st))
        then on_rollover cfg now st a current
        else cap_and_progress cfg now (set_last_poll now st) in
      (GetAlias ALIAS resolved :: fx, c)
  end.

(** What a pass does once the send is accepted: [batches += 1], the clock
    is read, the poll is made when it is due, and the pass ends. *)
Definition after_accept (cfg : config) (st : state) (a : answers)
  : list effect * control :=
  let st1 := count_batch st in
  let now := clock a in
  if Qle_bool (inject_Z (ILM_POLL_SECS cfg)) (now - last_poll st1)
  then poll cfg now st1 a
  else cap_and_progress cfg now st1.

(** One pass of [while True]. *)
Definition pass (cfg : config) (payload : string) (st : state) (a : answers)
  : list effect * control :=
  let ndj := bulk_ndjson payload (dpb st) in
  let (log, sent) := post_bulk_with_adapt (bulk_answer a) (dpb st) in
  let fx := (PostBulk ALIAS (dpb st) ndj :: log)%list in
  match sent with
  | Raise e => (fx, Raised e)
  | Return sent =>
      if sent <? 0 then
        let d := Z.max 1 (dpb st / 2) in
        ((fx ++ [Print (Shrinking d); Sleep (2 # 10)])%list,
         Continue (set_dpb d st))
      else
        let (fx', c) := after_accept cfg st a in
        ((fx ++ Sleep (2 # 100) :: fx')%list, c)
  end.

(** Where the loop stands after the passes the feed allows. *)
Inductive outcome : Type :=
| Running (st : state)
| Finished (st : state)
| Failed (e : exn).

Fixpoint ingest_loop (cfg : config) (payload : string) (st : state)
  (feed : list answers) : list effect * outcome :=
  match feed with
  | [] => ([], Running st)
  | a :: rest =>
      let (fx, c) := pass cfg payload st a in
      match c with
      | Continue st' =>
          let (fx', o) := ingest_loop cfg payload st' rest in
          ((fx ++ fx')%list, o)
      | Break st' => (fx, Finished st')
      | Raised e => (fx, Failed e)
      end
  end.

(** What the outside answers before and after the loop. *)
Record setup : Type := mkSetup {
  payload : string;
  max_content : result Z;
  first_alias_answer : http_outcome;
  first_managed_answer : result unit;
  first_speedup_answer : http_outcome;
  start_clock : Q;
  final_restore_answer : http_outcome
}.

(** [run_ingest_until_rollovers()], the limit discovery already evaluated
    to [max_content]. *)
Definition run_ingest_until_rollovers (cfg : config) (s : setup)
  (feed : list answers) : list effect * outcome :=
  let avg_doc_bytes := Z.of_nat (String.length (payload s)) in
  match (m <- max_content s ;; d <- initial_dpb avg_doc_bytes m ;;
         Return (m, d)) with
  | Raise e => ([], Failed e)
  | Return (m, d) =>
      let resolved := get_write_index ALIAS (first_alias_answer s) in
      let fx0 := [Print (SizingReport m avg_doc_bytes d);
                  GetAlias ALIAS resolved] in
      match resolved with
      | Raise e => (fx0, Failed e)
      | Return idx =>
          let fx := (fx0 ++ (if manages cfg then [EnsureManaged idx] else []))%list in
          match (if manages cfg then first_managed_answer s else Return tt) with
          | Raise e => (fx, Failed e)
          | Return _ =>
              let fx := (fx ++ [PutSettings idx true])%list in
              match set_fast idx true (first_speedup_answer s) with
              | Raise e => (fx, Failed e)
              | Return _ =>
                  let st := mkState d idx 0 0 0 (start_clock s) in
                  let (fx', o) := ingest_loop cfg (payload s) st feed in
                  match o with
                  | Finished st' =>
                      ((fx ++ fx' ++ try_set_fast (write_idx st') false
                                       (final_restore_answer s))%list, o)
                  | _ => ((fx ++ fx')%list, o)
                  end
              end
          end
      end
  end.

(** ** Vocabulary of the properties *)

(** The caller's test of a shrink signal, [sent < 0]. *)
Definition is_shrink_signal (r : result Z) : bool :=
  match r with
  | Return sent => sent <? 0
  | Raise _ => false
  end.

(** A connection or timeout error, or a response whose status is one of
    413, 429, 502, 503, 504. *)
Definition shrink_condition (o : http_outcome) : bool :=
  match o with
  | HttpRaises ConnectionError => true
  | HttpRaises Timeout => true
  | HttpRaises _ => false
  | HttpResponse r => status_in (status_code r) [413; 429; 502; 503; 504]
  end.

Definition with_bulk (o : http_outcome) (a : answers) : answers :=
  mkAnswers o (clock a) (alias_answer a) (restore_answer a)
            (managed_answer a) (speedup_answer a).

(** Projections of a trace. *)
Fixpoint messages (fx : list effect) : list message :=
  match fx with
  | [] => []
  | Print m :: rest => m :: messages rest
  | _ :: rest => messages rest
  end.

Fixpoint posted (fx : list effect) : list Z :=
  match fx with
  | [] => []
  | PostBulk _ docs _ :: rest => docs :: posted rest
  | _ :: rest => posted rest
  end.

Fixpoint settings_puts (fx : list effect) : list (string * bool) :=
  match fx with
  | [] => []
  | PutSettings index fast :: rest => (index, fast) :: settings_puts rest
  | _ :: rest => settings_puts rest
  end.

(** The write targets the polls resolved, in order. *)
Fixpoint resolved_names (fx : list effect) : list string :=
  match fx with
  | [] => []
  | GetAlias _ (Return name) :: rest => name :: resolved_names rest
  | _ :: rest => resolved_names rest
  end.

(** The number of identity changes along [current :: names]. *)
Fixpoint count_changes (current : string) (names : list string) : Z :=
  match names with
  | [] => 0
  | name :: rest =>
      (if String.eqb name current then 0 else 1) + count_changes name rest
  end.

Definition state_of (o : outcome) : option state :=
  match o with
  | Running st => Some st
  | Finished st => Some st
  | Failed _ => None
  end.

(** A setting that takes one of the two [return]s of the discovery: a string
    that ends in [b]. *)
Definition is_size_string (val : json) : bool :=
  match val with
  | JStr s => endswith s "b"
  | _ => false
  end.

Definition control_state (c : control) : option state :=
  match c with
  | Continue st => Some st
  | Break st => Some st
  | Raised _ => None
  end.

(** ** Answers used in the scenarios *)

Definition ok_bulk : http_outcome :=
  HttpResponse (mkResponse 200 "" (Return (JObj [("errors", JBool false)]))).

Definition ok_put : http_outcome :=
  HttpResponse (mkResponse 200 "" (Return (JObj [("acknowledged", JBool true)]))).

Definition alias_entry (flag : bool) : json :=
  JObj [("aliases", JObj [(ALIAS, JObj [("is_write_index", JBool flag)])])].

Definition alias_reply (items : list (string * json)) : http_outcome :=
  HttpResponse (mkResponse 200 "" (Return (JObj items))).

Definition before_rollover : http_outcome :=
  alias_reply [("idx-000001", alias_entry true)].

Definition after_rollover : http_outcome :=
  alias_reply [("idx-000001", alias_entry false);
               ("idx-000002", alias_entry true)].

Definition accepted_pass (seconds : Z) (alias : http_outcome) : answers :=
  mkAnswers ok_bulk (inject_Z seconds) alias ok_put (Return tt) ok_put.

Definition scenario_C_setup : setup :=
  mkSetup "x" (Return (100 * MiB)) before_rollover (Return tt) ok_put
          (inject_Z 1000) ok_put.

(** Five polls that resolve [idx-000001], then three that resolve
    [idx-000002], ten seconds apart. *)
Definition scenario_C_feed : list answers :=
  [accepted_pass 1010 before_rollover; accepted_pass 1020 before_rollover;
   accepted_pass 1030 before_rollover; accepted_pass 1040 before_rollover;
   accepted_pass 1050 before_rollover; accepted_pass 1060 after_rollover;
   accepted_pass 1070 after_rollover; accepted_pass 1080 after_rollover].

Definition scenario_C (cfg : config) : list effect * outcome :=
  run_ingest_until_rollovers cfg scenario_C_setup scenario_C_feed.

Definition too_large : http_outcome :=
  HttpResponse (mkResponse 413 "" (Raise ValueError)).

Definition Z_of_byte (b : byte) : Z := Z.of_N (N_of_ascii (ascii_of_byte b)).

(** The setting the discovery acts on, given what reading
    [http.max_content_length] under [persistent], [transient] and [defaults]
    yields: the first of the three that is a string ending in [b], the
    readings before it having succeeded. *)
Definition selected (persistent transient defaults : result json) (v : json)
  : Prop :=
  persistent = Return v
  \/ exists v1, persistent = Return v1 /\ is_size_string v1 = false
     /\ (transient = Return v
         \/ exists v2, transient = Return v2 /\ is_size_string v2 = false
            /\ defaults = Return v).

Definition settings_reply (js : json) : http_outcome :=
  HttpResponse (mkResponse 200 "" (Return js)).

Definition http_setting (root value : string) : json :=
  JObj [(root, JObj [("http", JObj [("max_content_length", JStr value)])])].

(** Accepted passes ten seconds apart, from second [1000 + 10], each polling
    and resolving the next name of the list. *)
Fixpoint polled_passes (seconds : Z) (names : list string) : list answers :=
  match names with
  | [] => []
  | name :: rest =>
      accepted_pass (seconds + 10) (alias_reply [(name, alias_entry true)])
      :: polled_passes (seconds + 10) rest
  end.

(** Rotations seen at polls 4, 9 and 15 of twenty. *)
Definition scenario_D_names : list string :=
  (repeat "idx-000001" 3 ++ repeat "idx-000002" 5 ++ repeat "idx-000003" 6
   ++ repeat "idx-000004" 6)%list.

Definition scenario_D : list effect * outcome :=
  run_ingest_until_rollovers v3 scenario_C_setup
    (polled_passes 1000 scenario_D_names).

(** A response the transport accepts: a status below 300 with a JSON object
    as body. *)
Definition accepted (o : http_outcome) : bool :=
  match o with
  | HttpRaises _ => false
  | HttpResponse r =>
      (status_code r <? 300)
      && match json_body r with
         | Return (JObj _) => true
         | _ => false
         end
  end.

Definition past_cap (cfg : config) (st : state) (a : answers) : bool :=
  Qgtb ((clock a - start_ts st) / 60) (inject_Z (MAX_MINUTES cfg)).

(** * Properties *)

(** ** Binary64 facts behind the sizer's budget *)

Lemma shr_1_m (mrs : shr_record) :
  0 <= shr_m mrs -> shr_m (shr_1 mrs) = Z.div2 (shr_m mrs).
Proof.
  destruct mrs as [m r s]; simpl. destruct m as [|p|p]; try lia; intros _.
  - reflexivity.
  - destruct p; reflexivity.
Qed.

Lemma iter_shr_1_m (p : positive) : forall mrs,
  0 <= shr_m mrs ->
  shr_m (iter_pos shr_1 p mrs) = Z.shiftr (shr_m mrs) (Zpos p).
Proof.
  assert (step : forall mrs, 0 <= shr_m mrs -> 0 <= shr_m (shr_1 mrs)).
  { intros mrs H. rewrite shr_1_m by assumption. now apply Z.div2_nonneg. }
  induction p as [p IH|p IH|]; intros mrs H; simpl.
  - pose proof (step mrs H) as H1.
    rewrite IH; [rewrite IH by assumption|]; [|rewrite IH by assumption; now apply Z.shiftr_nonneg].
    rewrite shr_1_m by assumption. rewrite Z.div2_spec.
    rewrite !Z.shiftr_shiftr by lia. f_equal. lia.
  - rewrite IH; [rewrite IH by assumption|]; [|rewrite IH by assumption; now apply Z.shiftr_nonneg].
    rewrite !Z.shiftr_shiftr by lia. f_equal. lia.
  - rewrite shr_1_m by assumption. apply Z.div2_spec.
Qed.

Lemma round_nearest_even_bounds (m : Z) (l : location) :
  m <= round_nearest_even m l <= m + 1.
Proof.
  destruct l as [|[ | | ]]; simpl; try lia. destruct (Z.even m); lia.
Qed.

Lemma Zdigits2_log2 (m : Z) : 0 < m -> Zdigits2 m = Z.log2 m + 1.
Proof.
  destruct m as [|p|p]; try lia; intros _. simpl.
  induction p as [p IH|p IH|]; simpl; try reflexivity.
  - rewrite Pos2Z.inj_succ. destruct p; simpl in *; lia.
  - rewrite Pos2Z.inj_succ. destruct p; simpl in *; lia.
Qed.

Lemma iter_xO (k p : positive) : Zpos (Pos.iter xO p k) = Zpos p * 2 ^ Zpos k.
Proof.
  revert p. induction k using Pos.peano_ind; intros p.
  - simpl. lia.
  - rewrite Pos.iter_succ. rewrite Pos2Z.inj_xO, IHk, Pos2Z.inj_succ, Z.pow_succ_r by lia. lia.
Qed.

Lemma shr_spec (mrs : shr_record) (e n : Z) :
  0 <= shr_m mrs ->
  shr_m (fst (shr mrs e n)) = Z.shiftr (shr_m mrs) (Z.max 0 n)
  /\ snd (shr mrs e n) = e + Z.max 0 n
  /\ (n <= 0 -> fst (shr mrs e n) = mrs).
Proof.
  intros H. destruct n as [|p|p]; simpl.
  - rewrite Z.shiftr_0_r. repeat split; lia.
  - rewrite iter_shr_1_m by assumption. repeat split; lia.
  - rewrite Z.shiftr_0_r. repeat split; lia.
Qed.

Lemma shr_m_of_loc (m : Z) (l : location) : shr_m (shr_record_of_loc m l) = m.
Proof. destruct l as [|[ | | ]]; reflexivity. Qed.

Lemma shr_1_shifted (m k : Z) (mrs : shr_record) :
  0 <= m -> 0 <= k ->
  Float.shifted m k mrs -> Float.shifted m (k + 1) (shr_1 mrs).
Proof.
  intros Hm Hk [Hq Hloc].
  assert (Hw : 0 < 2 ^ k) by (apply Z.pow_pos_nonneg; lia).
  assert (Hq0 : 0 <= m / 2 ^ k) by (apply Z.div_pos; lia).
  assert (Hrem : 0 <= m mod 2 ^ k < 2 ^ k) by (apply Z.mod_pos_bound; lia).
  unfold Float.shifted. rewrite Z.pow_add_r, Z.pow_1_r by lia.
  assert (Hdiv : m / (2 ^ k * 2) = m / 2 ^ k / 2)
    by (rewrite Z.div_div by lia; reflexivity).
  assert (Hmod : m mod (2 ^ k * 2) = m mod 2 ^ k + 2 ^ k * ((m / 2 ^ k) mod 2))
    by (apply Z.rem_mul_r; lia).
  destruct mrs as [q r s]. cbn [shr_m shr_r shr_s] in *. subst q.
  rewrite Hdiv, Hmod.
  set (w := 2 ^ k) in *. set (rem := m mod w) in *.
  destruct (m / w) as [|p|p] eqn:E; [| |lia].
  - cbn [shr_1 shr_m shr_r shr_s]. split; [reflexivity|].
    change (0 mod 2) with 0.
    destruct r, s; cbn [Float.located orb] in *; lia.
  - destruct p as [p|p|]; cbn [shr_1 shr_m shr_r shr_s].
    + split; [rewrite Pos2Z.inj_xI; apply Z.div_unique with 1; lia|].
      replace (Zpos p~1 mod 2) with 1
        by (rewrite Pos2Z.inj_xI; apply Z.mod_unique with (Zpos p); lia).
      destruct r, s; cbn [Float.located orb] in *; lia.
    + split; [rewrite Pos2Z.inj_xO; apply Z.div_unique with 0; lia|].
      replace (Zpos p~0 mod 2) with 0
        by (rewrite Pos2Z.inj_xO; apply Z.mod_unique with (Zpos p); lia).
      destruct r, s; cbn [Float.located orb] in *; lia.
    + split; [reflexivity|]. change (1 mod 2) with 1.
      destruct r, s; cbn [Float.located orb] in *; lia.
Qed.

Lemma iter_shr_1_shifted (m : Z) (p : positive) : forall k mrs,
  0 <= m -> 0 <= k ->
  Float.shifted m k mrs -> Float.shifted m (k + Zpos p) (iter_pos shr_1 p mrs).
Proof.
  induction p as [p IH|p IH|]; intros k mrs Hm Hk H; cbn [iter_pos].
  - replace (k + Zpos p~1) with (k + 1 + Zpos p + Zpos p) by lia.
    apply IH; try lia. apply IH; try lia. now apply shr_1_shifted.
  - replace (k + Zpos p~0) with (k + Zpos p + Zpos p) by lia.
    apply IH; try lia. now apply IH.
  - now apply shr_1_shifted.
Qed.

Lemma shr_exact_shifted (m e n : Z) :
  0 <= m ->
  Float.shifted m (Z.max 0 n) (fst (shr (shr_record_of_loc m loc_Exact) e n)).
Proof.
  intros Hm.
  assert (H0 : Float.shifted m 0 (shr_record_of_loc m loc_Exact)).
  { split; cbn; [now rewrite Z.div_1_r|now rewrite Z.mod_1_r]. }
  destruct n as [|p|p]; cbn [shr fst]; try exact H0.
  replace (Z.max 0 (Zpos p)) with (0 + Zpos p) by lia.
  apply iter_shr_1_shifted; [exact Hm|lia|exact H0].
Qed.

Lemma round_nearest_even_located (mrs : shr_record) (rem w : Z) :
  0 < w ->
  Float.located (shr_r mrs) (shr_s mrs) rem w ->
  (2 * rem < w ->
   round_nearest_even (shr_m mrs) (loc_of_shr_record mrs) = shr_m mrs)
  /\ (w < 2 * rem ->
      round_nearest_even (shr_m mrs) (loc_of_shr_record mrs) = shr_m mrs + 1).
Proof.
  intros Hw.
  destruct mrs as [q [|] [|]];
    cbn [Float.located shr_r shr_s shr_m loc_of_shr_record round_nearest_even];
    intros H; split; intros H'; try lia; reflexivity.
Qed.

(** What [binary_round_aux] makes of an exact nonnegative mantissa: it is
    shifted to 53 bits, rounded to [m2] (up when more than half of the last
    place is shifted out, down when less), and shifted once more if the
    rounding carried. *)
Lemma binary_round_aux_exact_shape (s : bool) (mx ex : Z) :
  0 <= mx ->
  exists m2 : Z,
    Z.shiftr mx (Float.shift1 mx ex) <= m2 <= Z.shiftr mx (Float.shift1 mx ex) + 1
    /\ (2 * (mx mod 2 ^ Float.shift1 mx ex) < 2 ^ Float.shift1 mx ex ->
        m2 = Z.shiftr mx (Float.shift1 mx ex))
    /\ (2 ^ Float.shift1 mx ex < 2 * (mx mod 2 ^ Float.shift1 mx ex) ->
        m2 = Z.shiftr mx (Float.shift1 mx ex) + 1)
    /\ binary_round_aux Float.prec Float.emax s mx ex loc_Exact =
       let e1 := ex + Float.shift1 mx ex in
       match Z.shiftr m2 (Float.shift1 m2 e1) with
       | Z0 => S754_zero s
       | Zpos m =>
           if e1 + Float.shift1 m2 e1 <=? Float.emax - Float.prec
           then S754_finite s m (e1 + Float.shift1 m2 e1)
           else S754_infinity s
       | Zneg _ => S754_nan
       end.
Proof.
  intros Hm. unfold binary_round_aux, shr_fexp.
  set (n1 := fexp Float.prec Float.emax (Zdigits2 mx + ex) - ex).
  pose proof (shr_spec (shr_record_of_loc mx loc_Exact) ex n1) as S1.
  pose proof (shr_exact_shifted mx ex n1 Hm) as [_ L1].
  rewrite shr_m_of_loc in S1. specialize (S1 Hm).
  destruct (shr (shr_record_of_loc mx loc_Exact) ex n1) as [mrs1 e1] eqn:E1.
  cbn [fst snd] in S1, L1. destruct S1 as (Sm & Se & _).
  set (m2 := round_nearest_even (shr_m mrs1) (loc_of_shr_record mrs1)).
  assert (B2 : shr_m mrs1 <= m2 <= shr_m mrs1 + 1)
    by apply round_nearest_even_bounds.
  assert (Hw : 0 < 2 ^ Z.max 0 n1) by (apply Z.pow_pos_nonneg; lia).
  destruct (round_nearest_even_located mrs1 _ _ Hw L1) as [Rdown Rup].
  assert (H1 : 0 <= shr_m mrs1) by (rewrite Sm; now apply Z.shiftr_nonneg).
  assert (H2 : 0 <= m2) by lia.
  set (n2 := fexp Float.prec Float.emax (Zdigits2 m2 + e1) - e1).
  pose proof (shr_spec (shr_record_of_loc m2 loc_Exact) e1 n2) as S2.
  rewrite shr_m_of_loc in S2. specialize (S2 H2).
  destruct (shr (shr_record_of_loc m2 loc_Exact) e1 n2) as [mrs2 e2] eqn:E2.
  cbn [fst snd] in S2. destruct S2 as (Tm & Te & _).
  exists m2. unfold Float.shift1. fold n1. rewrite <- Sm, <- Se. fold n2.
  split; [exact B2|]. split; [exact Rdown|]. split; [exact Rup|].
  cbv zeta. rewrite <- Tm, <- Te. reflexivity.
Qed.

Lemma shift1_eq (m e : Z) :
  0 < m ->
  Float.shift1 m e = Z.max 0 (Z.max (Z.log2 m + 1 + e - 53) (-1074) - e).
Proof.
  intros H. unfold Float.shift1, fexp, emin, Float.prec, Float.emax.
  rewrite Zdigits2_log2 by assumption. reflexivity.
Qed.

(** [float(c)] is exact below 2^52. *)
Lemma of_int_exact (c : Z) :
  0 < c < 2 ^ 52 ->
  exists mz : positive,
    Float.of_int c = Return (S754_finite false mz (Z.log2 c - 52))
    /\ Zpos mz = c * 2 ^ (52 - Z.log2 c)
    /\ 2 ^ 52 <= Zpos mz < 2 ^ 53.
Proof.
  intros [Hc Hlt]. destruct c as [|p|p]; try lia.
  set (c := Zpos p) in *.
  assert (Hl : 0 <= Z.log2 c < 52).
  { split; [apply Z.log2_nonneg|]. now apply Z.log2_lt_pow2. }
  pose proof (Zdigits2_log2 c Hc) as Hd.
  set (k := Z.to_pos (52 - Z.log2 c)).
  assert (Hk : Zpos k = 52 - Z.log2 c) by (unfold k; rewrite Z2Pos.id; lia).
  set (mz := Pos.iter xO p k).
  assert (Hmz : Zpos mz = c * 2 ^ (52 - Z.log2 c)).
  { unfold mz. rewrite iter_xO, Hk. reflexivity. }
  assert (Hlog : Z.log2 (Zpos mz) = 52).
  { rewrite Hmz, Z.log2_mul_pow2 by lia. lia. }
  assert (Hb : 2 ^ 52 <= Zpos mz < 2 ^ 53).
  { pose proof (Z.log2_spec (Zpos mz) eq_refl) as L. rewrite Hlog in L.
    exact L. }
  assert (R : binary_normalize Float.prec Float.emax c 0 false
              = binary_round_aux Float.prec Float.emax false (Zpos mz)
                  (Z.log2 c - 52) loc_Exact).
  { unfold c at 1. unfold binary_normalize, binary_round, shl_align.
    change (Zpos (digits2_pos p)) with (Zdigits2 c). rewrite Hd.
    unfold fexp, emin, Float.prec, Float.emax.
    replace (Z.max (Z.log2 c + 1 + 0 - 53) (3 - 1024 - 53)) with (Z.log2 c - 52) by lia.
    replace (Z.log2 c - 52 - 0) with (Z.neg k) by lia.
    reflexivity. }
  destruct (binary_round_aux_exact_shape false (Zpos mz) (Z.log2 c - 52))
    as (m2 & _ & Hex & _ & Heq); [lia|].
  assert (S0 : Float.shift1 (Zpos mz) (Z.log2 c - 52) = 0).
  { rewrite shift1_eq, Hlog by lia. lia. }
  rewrite S0, Z.pow_0_r, Z.mod_1_r, Z.shiftr_0_r in Hex.
  specialize (Hex ltac:(lia)). subst m2.
  unfold Float.of_int. rewrite R, Heq. cbv zeta.
  rewrite S0, Z.add_0_r, S0, Z.shiftr_0_r, Z.add_0_r.
  replace (Z.log2 c - 52 <=? Float.emax - Float.prec) with true.
  2:{ symmetry. apply Z.leb_le. unfold Float.emax, Float.prec. lia. }
  exists mz. repeat split; try assumption; lia.
Qed.

(** The arithmetic of rounding [c * 0.85] to 53 bits and truncating it: [X]
    scales [c] to a 53-bit mantissa, [P] is the exact product of the
    mantissas, [n1] the bits rounded away, [m2] the rounded mantissa and [k]
    the bits truncated by [int]. *)
Lemma budget_arith (c X P n1 k m2 b : Z) :
  0 < c ->
  32 <= X ->
  c * X < 2 ^ 53 ->
  P = c * X * 7656119366529843 ->
  52 <= n1 <= 53 ->
  0 <= k ->
  2 ^ k * 2 ^ n1 = X * 2 ^ 53 ->
  P / 2 ^ n1 <= m2 <= P / 2 ^ n1 + 1 ->
  (2 ^ n1 < 2 * (P mod 2 ^ n1) -> m2 = P / 2 ^ n1 + 1) ->
  b = m2 / 2 ^ k ->
  b = 17 * c / 20.
Proof.
  intros Hc HX HcX HP Hn1 Hk Hkn Hm2 Hup Hb.
  assert (Hu : 0 < 2 ^ n1) by (apply Z.pow_pos_nonneg; lia).
  assert (Hv : 0 < 2 ^ k) by (apply Z.pow_pos_nonneg; lia).
  assert (Hu52 : 2 ^ 52 <= 2 ^ n1 <= 2 ^ 53)
    by (split; apply Z.pow_le_mono_r; lia).
  set (u := 2 ^ n1) in *. set (v := 2 ^ k) in *.
  set (cx := c * X) in *.
  change (2 ^ 52) with 4503599627370496 in *.
  change (2 ^ 53) with 9007199254740992 in *.
  pose proof (Z.div_mod P u ltac:(lia)) as Hdm.
  pose proof (Z.mod_pos_bound P u Hu) as Hrem.
  set (m1 := P / u) in *. set (rem := P mod u) in *.
  pose proof (Z.div_mod (17 * c) 20 ltac:(lia)) as Hq.
  pose proof (Z.mod_pos_bound (17 * c) 20 ltac:(lia)) as Hrho.
  set (q := 17 * c / 20) in *. set (rho := (17 * c) mod 20) in *.
  assert (Hcx : 17 * cx = 20 * (q * X) + rho * X) by (unfold cx; nia).
  set (qx := q * X) in *.
  assert (HqW : q * (v * u) = qx * 9007199254740992) by (rewrite Hkn; unfold qx; ring).
  (* upper bound *)
  assert (Hbv : v * b <= m2) by (rewrite Hb; apply Z.mul_div_le; exact Hv).
  assert (Hupper : b <= q).
  { assert (H20 : 20 * b <= 17 * c).
    { assert (Hall : b * (X * 9007199254740992) <= P + u).
      { rewrite <- Hkn. nia. }
      nia. }
    unfold q. apply Z.div_le_lower_bound; lia. }
  (* lower bound *)
  assert (Hlower : q <= b).
  { rewrite Hb. apply Z.div_le_lower_bound; [exact Hv|].
    destruct (Z.eq_dec rho 0) as [R0|R0].
    - (* 17 c is a multiple of 20: the product is just below q * v and is
         rounded up to it *)
      rewrite R0 in Hcx.
      assert (Ht : 5 * (qx * 9007199254740992 - P) = cx) by lia.
      set (t := qx * 9007199254740992 - P) in *.
      assert (Hdecomp : P = u * (v * q - 1) + (u - t)) by nia.
      assert (Hm1 : m1 = v * q - 1).
      { unfold m1. symmetry. apply Z.div_unique with (u - t); lia. }
      assert (Hr : rem = u - t).
      { unfold rem. symmetry. apply Z.mod_unique with (v * q - 1); lia. }
      rewrite Hup by lia. lia.
    - assert (HrX : X <= rho * X) by nia.
      assert (HP' : u * (v * q) <= P) by nia.
      assert (v * q <= m1) by (apply Z.div_le_lower_bound; lia).
      lia. }
  lia.
Qed.

(** Below 2^48 the truncated binary64 product is the floor of the rational
    one: [int(c * 0.85) = floor(17 * c / 20)]. *)
Lemma budget_of_exact (c : Z) :
  0 < c < 2 ^ 48 -> budget_of c = Return (17 * c / 20).
Proof.
  intros [Hc Hlt].
  destruct (of_int_exact c) as (mz & Hf & Hmz & Hb); [lia|].
  assert (HL : 0 <= Z.log2 c < 48).
  { split; [apply Z.log2_nonneg|]. now apply Z.log2_lt_pow2. }
  set (L := Z.log2 c) in *.
  set (m0 := 7656119366529843%positive).
  set (P := Zpos (mz * m0)).
  assert (HP : P = Zpos mz * Zpos m0) by reflexivity.
  assert (HPb : 2 ^ 104 <= P < 2 ^ 106).
  { rewrite HP. unfold m0. change (2 ^ 104) with (2 ^ 52 * 2 ^ 52).
    change (2 ^ 106) with (2 ^ 53 * 2 ^ 53). nia. }
  assert (HlP : 104 <= Z.log2 P < 106).
  { split; [apply Z.log2_le_pow2|apply Z.log2_lt_pow2]; lia. }
  set (ex := L - 105).
  assert (Hmul : Float.mul (S754_finite false mz (L - 52)) SAFETY_MARGIN
                 = binary_round_aux Float.prec Float.emax false P ex loc_Exact).
  { unfold Float.mul, SAFETY_MARGIN, Float.lit_0_85, SFmul. simpl xorb.
    unfold P, ex, m0. f_equal. lia. }
  destruct (binary_round_aux_exact_shape false P ex)
    as (m2 & Hm2 & _ & Hup & Heq); [lia|].
  assert (Hn1 : Float.shift1 P ex = Z.log2 P - 52).
  { rewrite shift1_eq by lia. unfold ex. lia. }
  rewrite Hn1 in *.
  set (n1 := Z.log2 P - 52) in *.
  assert (Hn1r : 52 <= n1 <= 53) by (unfold n1; lia).
  rewrite Z.shiftr_div_pow2 in Hm2, Hup by lia.
  assert (Hlm1 : Z.log2 (P / 2 ^ n1) = 52).
  { rewrite <- Z.shiftr_div_pow2, Z.log2_shiftr by lia. unfold n1. lia. }
  assert (Hm1pos : 0 < P / 2 ^ n1).
  { destruct (Z.le_gt_cases (P / 2 ^ n1) 0) as [H|H]; [|exact H].
    rewrite Z.log2_nonpos in Hlm1 by assumption. lia. }
  assert (Hm1b : 2 ^ 52 <= P / 2 ^ n1 < 2 ^ 53).
  { pose proof (Z.log2_spec _ Hm1pos) as S. rewrite Hlm1 in S. exact S. }
  assert (Hlm2 : 52 <= Z.log2 m2 <= 53).
  { split; [apply Z.log2_le_pow2|]; try lia.
    assert (Z.log2 m2 < 54); [apply Z.log2_lt_pow2|]; lia. }
  set (e1 := ex + n1) in *.
  assert (Hn2 : Float.shift1 m2 e1 = Z.log2 m2 - 52).
  { rewrite shift1_eq by lia. unfold e1, ex, n1. lia. }
  cbv zeta in Heq. rewrite Hn2 in Heq.
  set (n2 := Z.log2 m2 - 52) in *.
  assert (Hm3 : 0 < Z.shiftr m2 n2).
  { rewrite Z.shiftr_div_pow2 by lia. apply Z.div_str_pos. split.
    - apply Z.pow_pos_nonneg; lia.
    - apply Z.le_trans with (2 ^ 1); [apply Z.pow_le_mono_r; lia|].
      change (2 ^ 1) with 2. lia. }
  assert (He3 : e1 + n2 < 0) by (unfold e1, ex, n1, n2; lia).
  unfold budget_of. rewrite Hf. cbv [bind]. rewrite Hmul, Heq.
  destruct (Z.shiftr m2 n2) as [|m3|m3] eqn:E3; try lia.
  replace (e1 + n2 <=? Float.emax - Float.prec) with true.
  2:{ symmetry. apply Z.leb_le. unfold Float.emax, Float.prec. lia. }
  unfold Float.to_int, cond_Zopp.
  replace (0 <=? e1 + n2) with false by (symmetry; apply Z.leb_gt; lia).
  rewrite <- E3, Z.shiftr_shiftr by lia.
  replace (n2 + - (e1 + n2)) with (- e1) by lia.
  set (k := - e1). assert (Hk : 0 <= k) by (unfold k, e1, ex, n1; lia).
  f_equal. rewrite Z.shiftr_div_pow2 by exact Hk.
  assert (Hkn : 2 ^ k * 2 ^ n1 = 2 ^ (52 - L) * 2 ^ 53).
  { rewrite <- !Z.pow_add_r by lia. f_equal. unfold k, e1, ex. lia. }
  apply (budget_arith c (2 ^ (52 - L)) P n1 k m2); try assumption;
    try reflexivity.
  - change 32 with (2 ^ 5). apply Z.pow_le_mono_r; lia.
  - rewrite <- Hmz. lia.
  - rewrite HP, Hmz. reflexivity.
Qed.

(** ** Batch sizer *)

Example budget_100MiB : budget_of (100 * MiB) = Return 89128960.
Proof. reflexivity. Qed.

Example b64_len_payload : b64_len RAW_PAYLOAD_BYTES = 2796204.
Proof. reflexivity. Qed.

(** Far enough beyond 2^48 bytes the binary64 product is no longer below the
    rational one: here the budget exceeds [0.85 * ceiling], and the one-item
    batch sized from it exceeds the margin although an item fits the
    budget. *)
Example budget_above_margin :
  budget_of (2 ^ 52 + 11) = Return 3828059683264931
  /\ initial_dpb (3828059683264931 - 64) (2 ^ 52 + 11) = Return 1
  /\ within_margin 1 (3828059683264931 - 64) (2 ^ 52 + 11) = false.
Proof. repeat split; vm_compute; reflexivity. Qed.

(** Under a ceiling of 1 MiB not even one of the script's items fits the
    budget, and the sizer still plans batches of one item. *)
Example sizer_one_MiB :
  budget_of MiB = Return 891289
  /\ initial_dpb (b64_len RAW_PAYLOAD_BYTES) MiB = Return 1.
Proof. split; vm_compute; reflexivity. Qed.

(** A ceiling that [float] cannot hold makes the sizer raise. *)
Example sizer_overflow : initial_dpb 1 (2 ^ 1024) = Raise OverflowError.
Proof. vm_compute. reflexivity. Qed.

Lemma docs_per_batch_eq (avg ceiling budget : Z) :
  budget_of ceiling = Return budget ->
  0 < avg + 64 ->
  docs_per_batch avg ceiling = Return (Z.max 1 (budget / (avg + 64))).
Proof.
  intros Hb Hp. unfold docs_per_batch, floordiv. rewrite Hb. cbv [bind].
  destruct (avg + 64 =? 0) eqn:E; [apply Z.eqb_eq in E; lia|reflexivity].
Qed.

Lemma initial_dpb_eq (avg ceiling budget : Z) :
  budget_of ceiling = Return budget ->
  0 < avg + 64 ->
  initial_dpb avg ceiling
  = Return (Z.min (Z.max 1 (budget / (avg + 64))) CAP_DOCS_PER_BULK).
Proof.
  intros Hb Hp. unfold initial_dpb.
  rewrite (docs_per_batch_eq avg ceiling budget Hb Hp). reflexivity.
Qed.

(** C1, as stated, fails: with a ceiling of one byte and items of one byte
    the sizer still returns one item, and 1 * (1 + 64) exceeds 0.85 * 1. *)
Lemma sizer_floor_breaks_margin :
  initial_dpb 1 1 = Return 1 /\ within_margin 1 1 1 = false.
Proof. split; vm_compute; reflexivity. Qed.

(** C1 (amended): for every ceiling below 2^48 bytes and every positive
    average item size the budget is [floor(0.85 * ceiling)] and the sizer
    returns an item count between 1 and the hard cap 40; the batch stays
    within 85% of the ceiling exactly when a single item does, and when not
    even one item fits the sizer still returns 1. *)
Theorem initial_dpb_sound (avg ceiling : Z) :
  0 < ceiling < 2 ^ 48 ->
  0 < avg ->
  exists n : Z,
    budget_of ceiling = Return (17 * ceiling / 20)
    /\ initial_dpb avg ceiling = Return n
    /\ 1 <= n <= CAP_DOCS_PER_BULK
    /\ (within_margin n avg ceiling = true
        <-> within_margin 1 avg ceiling = true)
    /\ (within_margin 1 avg ceiling = false -> n = 1).
Proof.
  intros Hc Ha.
  pose proof (budget_of_exact ceiling Hc) as Hb.
  set (b := 17 * ceiling / 20) in *.
  exists (Z.min (Z.max 1 (b / (avg + 64))) CAP_DOCS_PER_BULK).
  split; [exact Hb|]. split; [apply initial_dpb_eq; [exact Hb|lia]|].
  unfold CAP_DOCS_PER_BULK, within_margin.
  assert (Hq : (avg + 64) * (b / (avg + 64)) <= b) by (apply Z.mul_div_le; lia).
  assert (H20 : 20 * b <= 17 * ceiling) by (apply Z.mul_div_le; lia).
  assert (Hfit : 20 * (1 * (avg + 64)) <= 17 * ceiling -> avg + 64 <= b).
  { intros H. unfold b. apply Z.div_le_lower_bound; lia. }
  split; [lia|]. rewrite !Z.leb_le. split; [split|].
  - intros H. nia.
  - intros H. specialize (Hfit H).
    assert (1 <= b / (avg + 64)) by (apply Z.div_le_lower_bound; lia).
    nia.
  - intros H. apply Z.leb_gt in H.
    assert (b < avg + 64) by lia.
    rewrite Z.div_small by (split; [apply Z.div_pos|]; lia). reflexivity.
Qed.

Lemma initial_dpb_sound_witness :
  exists n : Z,
    budget_of (100 * MiB) = Return (17 * (100 * MiB) / 20)
    /\ initial_dpb 2796204 (100 * MiB) = Return n
    /\ 1 <= n <= CAP_DOCS_PER_BULK
    /\ (within_margin n 2796204 (100 * MiB) = true
        <-> within_margin 1 2796204 (100 * MiB) = true)
    /\ (within_margin 1 2796204 (100 * MiB) = false -> n = 1).
Proof.
  apply (initial_dpb_sound 2796204 (100 * MiB)).
  - unfold MiB. split; [reflexivity|]. apply Z.ltb_lt. vm_compute. reflexivity.
  - reflexivity.
Defined.

(** C7, as stated, fails: with the 100 MiB ceiling and the script's items
    (the base64 text of 2 MiB, 2796204 bytes, about 2.8 MB) the sizer returns
    31; reading the scenario's sizes as decimal megabytes or as 2.8 MiB gives
    30.  The hard cap 40 is never reached. *)
Lemma scenario_A_is_not_capped :
  initial_dpb (b64_len RAW_PAYLOAD_BYTES) (100 * MiB) = Return 31
  /\ initial_dpb 2800000 100000000 = Return 30
  /\ initial_dpb 2936013 (100 * MiB) = Return 30.
Proof. repeat split; vm_compute; reflexivity. Qed.

(** C7 (amended): with the 100 MiB ceiling (budget 89128960 bytes) and items
    of about 2.8 MB the sizer returns the uncapped quotient, 31 for the
    script's 2796204-byte items, which is below the hard cap; the cap is
    reached exactly by items of at most 2228160 bytes. *)
Theorem scenario_A_uncapped :
  budget_of (100 * MiB) = Return 89128960
  /\ docs_per_batch 2796204 (100 * MiB) = Return 31
  /\ initial_dpb 2796204 (100 * MiB) = Return 31
  /\ (forall avg : Z, 0 < avg ->
      initial_dpb avg (100 * MiB)
      = Return (Z.min (Z.max 1 (89128960 / (avg + 64))) 40))
  /\ (forall avg : Z, 0 < avg ->
      (initial_dpb avg (100 * MiB) = Return 40 <-> avg <= 2228160))
  /\ (forall avg : Z, 2600000 <= avg <= 3000000 ->
      exists n : Z, initial_dpb avg (100 * MiB) = Return n /\ 29 <= n <= 34).
Proof.
  assert (Hb : budget_of (100 * MiB) = Return 89128960) by reflexivity.
  assert (Heq : forall avg : Z, 0 < avg ->
            initial_dpb avg (100 * MiB)
            = Return (Z.min (Z.max 1 (89128960 / (avg + 64))) 40)).
  { intros avg Ha. apply initial_dpb_eq; [exact Hb|lia]. }
  split; [exact Hb|]. split; [vm_compute; reflexivity|].
  split; [vm_compute; reflexivity|]. split; [exact Heq|]. split.
  - intros avg Ha. rewrite (Heq avg Ha). split.
    + intros H. injection H as H.
      assert (40 <= 89128960 / (avg + 64)) by lia.
      assert ((avg + 64) * (89128960 / (avg + 64)) <= 89128960)
        by (apply Z.mul_div_le; lia).
      nia.
    + intros H. f_equal.
      assert (40 <= 89128960 / (avg + 64))
        by (apply Z.div_le_lower_bound; lia).
      lia.
  - intros avg Ha. rewrite (Heq avg) by lia.
    exists (Z.min (Z.max 1 (89128960 / (avg + 64))) 40).
    split; [reflexivity|].
    assert (29 <= 89128960 / (avg + 64)) by (apply Z.div_le_lower_bound; lia).
    assert (89128960 / (avg + 64) < 35) by (apply Z.div_lt_upper_bound; lia).
    lia.
Qed.

(** ** Transport *)

Lemma shrink_status_is_error (s : Z) :
  status_in s SHRINK_STATUSES = true -> 300 <= s.
Proof.
  unfold status_in, SHRINK_STATUSES. simpl. rewrite !orb_true_iff, !Z.eqb_eq.
  lia.
Qed.

(** C2: the outcome of one send is three-way.  For a batch of at least one
    item, the send returns the shrink signal exactly on a connection or
    timeout error and on the statuses 413, 429, 502, 503, 504; it raises on
    every other status from 300 on; and on a status below 300 (the body being
    the JSON object the bulk endpoint answers) it returns the item count. *)
Theorem transport_three_way (o : http_outcome) (docs : Z) :
  1 <= docs ->
  (is_shrink_signal (snd (post_bulk_with_adapt o docs)) = true
   <-> shrink_condition o = true)
  /\ (forall r : response,
        o = HttpResponse r ->
        300 <= status_code r ->
        status_in (status_code r) SHRINK_STATUSES = false ->
        snd (post_bulk_with_adapt o docs)
        = Raise (RuntimeError (BulkStatus (status_code r)
                                 (substring 0 800 (text r)))))
  /\ (forall (r : response) (items : list (string * json)),
        o = HttpResponse r ->
        status_code r < 300 ->
        json_body r = Return (JObj items) ->
        snd (post_bulk_with_adapt o docs) = Return docs).
Proof.
  intros Hd. split; [|split].
  - destruct o as [e|r].
    + destruct e; simpl; split; intros H; (reflexivity || discriminate H).
    + unfold post_bulk_with_adapt, shrink_condition.
      change [413; 429; 502; 503; 504] with SHRINK_STATUSES.
      destruct (status_in (status_code r) SHRINK_STATUSES) eqn:S.
      * pose proof (shrink_status_is_error _ S) as E. apply Z.leb_le in E.
        rewrite E. simpl. tauto.
      * destruct (300 <=? status_code r); simpl;
          [split; intros H; discriminate H|].
        destruct (json_body r) as [js|e]; simpl;
          [|split; intros H; discriminate H].
        destruct (dict_get js "errors" JNull) as [flag|e]; simpl;
          [|split; intros H; discriminate H].
        destruct (truthy flag); simpl; split; intros H; try discriminate H;
          apply Z.ltb_lt in H; lia.
  - intros r -> Hs Hn. unfold post_bulk_with_adapt.
    apply Z.leb_le in Hs. rewrite Hs, Hn. reflexivity.
  - intros r items -> Hs Hj. unfold post_bulk_with_adapt.
    apply Z.leb_gt in Hs. rewrite Hs, Hj. simpl.
    destruct (truthy _); reflexivity.
Qed.

Lemma transport_three_way_witness :
  (is_shrink_signal
     (snd (post_bulk_with_adapt
             (HttpResponse (mkResponse 413 "" (Raise ValueError))) 40)) = true
   <-> shrink_condition (HttpResponse (mkResponse 413 "" (Raise ValueError)))
       = true)
  /\ (forall r : response,
        HttpResponse (mkResponse 413 "" (Raise ValueError)) = HttpResponse r ->
        300 <= status_code r ->
        status_in (status_code r) SHRINK_STATUSES = false ->
        snd (post_bulk_with_adapt
               (HttpResponse (mkResponse 413 "" (Raise ValueError))) 40)
        = Raise (RuntimeError (BulkStatus (status_code r)
                                 (substring 0 800 (text r)))))
  /\ (forall (r : response) (items : list (string * json)),
        HttpResponse (mkResponse 413 "" (Raise ValueError)) = HttpResponse r ->
        status_code r < 300 ->
        json_body r = Return (JObj items) ->
        snd (post_bulk_with_adapt
               (HttpResponse (mkResponse 413 "" (Raise ValueError))) 40)
        = Return 40).
Proof.
  apply (transport_three_way
           (HttpResponse (mkResponse 413 "" (Raise ValueError))) 40).
  lia.
Defined.

Example transport_examples :
  snd (post_bulk_with_adapt (HttpRaises Timeout) 40) = Return (-1)
  /\ snd (post_bulk_with_adapt
            (HttpResponse (mkResponse 429 "" (Raise ValueError))) 40)
     = Return (-1)
  /\ snd (post_bulk_with_adapt
            (HttpResponse (mkResponse 400 "bad" (Raise ValueError))) 40)
     = Raise (RuntimeError (BulkStatus 400 "bad"))
  /\ snd (post_bulk_with_adapt
            (HttpResponse (mkResponse 200 "" (Return (JObj [])))) 40)
     = Return 40.
Proof. repeat split. Qed.

(** ** Traces of a pass *)

Lemma posted_app (fx fx' : list effect) :
  posted (fx ++ fx') = (posted fx ++ posted fx')%list.
Proof.
  induction fx as [|e fx IH]; [reflexivity|].
  destruct e; simpl; rewrite IH; reflexivity.
Qed.

Lemma messages_app (fx fx' : list effect) :
  messages (fx ++ fx') = (messages fx ++ messages fx')%list.
Proof.
  induction fx as [|e fx IH]; [reflexivity|].
  destruct e; simpl; rewrite IH; reflexivity.
Qed.

Lemma resolved_names_app (fx fx' : list effect) :
  resolved_names (fx ++ fx')
  = (resolved_names fx ++ resolved_names fx')%list.
Proof.
  induction fx as [|e fx IH]; [reflexivity|].
  destruct e as [| ? [?|?] | | | |]; simpl; rewrite IH; reflexivity.
Qed.

Lemma try_set_fast_posts (index : string) (on : bool) (o : http_outcome) :
  posted (try_set_fast index on o) = [].
Proof. unfold try_set_fast. destruct (set_fast index on o); reflexivity. Qed.

Lemma cap_and_progress_posts (cfg : config) (now : Q) (st : state) :
  posted (fst (cap_and_progress cfg now st)) = [].
Proof.
  unfold cap_and_progress.
  destruct (Qgtb _ _); [reflexivity|]. destruct (_ =? 0); reflexivity.
Qed.

Lemma on_rollover_posts cfg now st a current :
  posted (fst (on_rollover cfg now st a current)) = [].
Proof.
  unfold on_rollover.
  destruct (manages cfg); [destruct (managed_answer a)|];
    repeat match goal with
           | |- context [if ?b then _ else _] => destruct b
           | |- context [let (_, _) := ?p in _] =>
               let E := fresh "E" in
               pose proof (cap_and_progress_posts cfg now
                             (set_last_poll now
                                (set_write_idx current (count_rollover st)))) as E;
               destruct p
           end;
    simpl fst in *; simpl posted; rewrite ?posted_app, ?try_set_fast_posts;
    simpl; rewrite ?posted_app, ?try_set_fast_posts; simpl;
    try assumption; try reflexivity.
Qed.

Lemma poll_posts cfg now st a : posted (fst (poll cfg now st a)) = [].
Proof.
  unfold poll. destruct (get_write_index ALIAS (alias_answer a)) as [current|e];
    [|reflexivity].
  destruct (negb (String.eqb current (write_idx st))).
  - pose proof (on_rollover_posts cfg now st a current) as H.
    destruct (on_rollover cfg now st a current). exact H.
  - pose proof (cap_and_progress_posts cfg now (set_last_poll now st)) as H.
    destruct (cap_and_progress cfg now (set_last_poll now st)). exact H.
Qed.

Lemma post_bulk_with_adapt_posts (o : http_outcome) (docs : Z) :
  posted (fst (post_bulk_with_adapt o docs)) = [].
Proof.
  unfold post_bulk_with_adapt. destruct o as [e|r]; [destruct e; reflexivity|].
  destruct (300 <=? status_code r);
    [destruct (status_in _ _); reflexivity|].
  destruct (json_body r) as [js|e]; [|reflexivity].
  destruct (dict_get js "errors" JNull) as [flag|e]; [|reflexivity].
  destruct (truthy flag); reflexivity.
Qed.

Lemma after_accept_posts cfg st a :
  posted (fst (after_accept cfg st a)) = [].
Proof.
  unfold after_accept. cbv zeta.
  destruct (Qle_bool _ _); [apply poll_posts|apply cap_and_progress_posts].
Qed.

(** Every pass makes exactly one bulk request, of [dpb] documents. *)
Lemma pass_posts_once cfg payload st a :
  posted (fst (pass cfg payload st a)) = [dpb st].
Proof.
  unfold pass.
  pose proof (post_bulk_with_adapt_posts (bulk_answer a) (dpb st)) as Hp.
  destruct (post_bulk_with_adapt (bulk_answer a) (dpb st)) as [log sent].
  simpl in Hp. destruct sent as [sent|e]; [|simpl; rewrite Hp; reflexivity].
  destruct (sent <? 0).
  - simpl. rewrite posted_app, Hp. reflexivity.
  - pose proof (after_accept_posts cfg st a) as H.
    destruct (after_accept cfg st a) as [fx c].
    simpl in *. rewrite posted_app, Hp. simpl. rewrite H. reflexivity.
Qed.

Lemma pass_accepted cfg payload st a log :
  post_bulk_with_adapt (bulk_answer a) (dpb st) = (log, Return (dpb st)) ->
  0 <= dpb st ->
  pass cfg payload st a
  = ((PostBulk ALIAS (dpb st) (bulk_ndjson payload (dpb st)) :: log)
       ++ Sleep (2 # 100) :: fst (after_accept cfg st a),
     snd (after_accept cfg st a))%list.
Proof.
  intros Hp Hd. unfold pass. rewrite Hp.
  replace (dpb st <? 0) with false by (symmetry; apply Z.ltb_ge; exact Hd).
  destruct (after_accept cfg st a). reflexivity.
Qed.

Lemma cap_and_progress_state cfg now st :
  control_state (snd (cap_and_progress cfg now st)) = Some st.
Proof.
  unfold cap_and_progress.
  destruct (Qgtb _ _); [reflexivity|]. destruct (_ =? 0); reflexivity.
Qed.

(** A detected rollover counts once, moves the write target, and leaves the
    batch size and the batch count alone. *)
Lemma on_rollover_state cfg now st a current :
  match control_state (snd (on_rollover cfg now st a current)) with
  | Some st' =>
      rollovers st' = rollovers st + 1 /\ write_idx st' = current
      /\ dpb st' = dpb st /\ batches st' = batches st
      /\ start_ts st' = start_ts st
  | None => manages cfg = true /\ exists e, managed_answer a = Raise e
  end.
Proof.
  unfold on_rollover.
  destruct (manages cfg); [destruct (managed_answer a) as [u|e]|];
    try (simpl; split; [reflexivity|eexists; reflexivity]);
    (destruct (TARGET_ROLLOVERS cfg <=? _); [simpl; repeat split|];
     pose proof (cap_and_progress_state cfg now
                   (set_last_poll now
                      (set_write_idx current (count_rollover st)))) as H;
     destruct (cap_and_progress cfg now _) as [fx c]; simpl in *;
     rewrite H; simpl; repeat split).
Qed.

Lemma poll_state cfg now st a :
  match get_write_index ALIAS (alias_answer a) with
  | Raise e => snd (poll cfg now st a) = Raised e
  | Return current =>
      match control_state (snd (poll cfg now st a)) with
      | Some st' =>
          rollovers st' = rollovers st
                          + (if String.eqb current (write_idx st) then 0 else 1)
          /\ write_idx st' = current
          /\ dpb st' = dpb st /\ batches st' = batches st
          /\ start_ts st' = start_ts st
      | None => String.eqb current (write_idx st) = false
                /\ manages cfg = true /\ exists e, managed_answer a = Raise e
      end
  end.
Proof.
  unfold poll.
  destruct (get_write_index ALIAS (alias_answer a)) as [current|e];
    [|reflexivity].
  destruct (String.eqb current (write_idx st)) eqn:E; simpl negb; cbv iota.
  - pose proof (cap_and_progress_state cfg now (set_last_poll now st)) as H.
    destruct (cap_and_progress cfg now (set_last_poll now st)) as [fx c].
    simpl in *. rewrite H. apply String.eqb_eq in E. simpl.
    repeat split; try lia. symmetry. exact E.
  - pose proof (on_rollover_state cfg now st a current) as H.
    destruct (on_rollover cfg now st a current) as [fx c]. simpl in *.
    destruct (control_state c) as [st'|]; [exact H|].
    split; [reflexivity|exact H].
Qed.

(** ** Shrinking *)

Lemma shrink_condition_signal (o : http_outcome) (docs : Z) :
  shrink_condition o = true ->
  post_bulk_with_adapt o docs = ([], Return (-1)).
Proof.
  destruct o as [e|r]; simpl.
  - destruct e; (reflexivity || discriminate).
  - change [413; 429; 502; 503; 504] with SHRINK_STATUSES. intros S.
    pose proof (shrink_status_is_error _ S) as E. apply Z.leb_le in E.
    unfold post_bulk_with_adapt. rewrite E, S. reflexivity.
Qed.

Lemma pass_shrink cfg payload st a :
  shrink_condition (bulk_answer a) = true ->
  pass cfg payload st a
  = ([PostBulk ALIAS (dpb st) (bulk_ndjson payload (dpb st));
      Print (Shrinking (Z.max 1 (dpb st / 2))); Sleep (2 # 10)],
     Continue (set_dpb (Z.max 1 (dpb st / 2)) st)).
Proof.
  intros S. unfold pass. rewrite (shrink_condition_signal _ _ S). reflexivity.
Qed.

(** C3: after a shrink signal the next batch has [max(1, previous // 2)]
    items and the attempt is not counted: the pass changes [dpb] only.  From
    40 items, three 413 answers in a row give batches of 40, 20 and 10 items
    and leave 5 for the next one, the batch counter unchanged. *)
Theorem shrink_halves_uncounted :
  (forall cfg payload st a,
      shrink_condition (bulk_answer a) = true ->
      exists fx st',
        pass cfg payload st a = (fx, Continue st')
        /\ dpb st' = Z.max 1 (dpb st / 2)
        /\ batches st' = batches st
        /\ rollovers st' = rollovers st
        /\ write_idx st' = write_idx st
        /\ posted fx = [dpb st])
  /\ (forall cfg payload idx r lp b ts body_text body a1 a2 a3,
        let too_large := HttpResponse (mkResponse 413 body_text body) in
        let run := ingest_loop cfg payload (mkState 40 idx r lp b ts)
                     (map (with_bulk too_large) [a1; a2; a3]) in
        snd run = Running (mkState 5 idx r lp b ts)
        /\ posted (fst run) = [40; 20; 10]
        /\ messages (fst run) = [Shrinking 20; Shrinking 10; Shrinking 5]).
Proof.
  split.
  - intros cfg payload st a S. rewrite (pass_shrink cfg payload st a S).
    eexists. eexists. split; [reflexivity|]. repeat split.
  - intros cfg payload idx r lp b ts body_text body a1 a2 a3 too_large run.
    unfold run, too_large.
    repeat (cbn [map ingest_loop set_dpb dpb write_idx rollovers last_poll
                 batches start_ts];
            rewrite pass_shrink by reflexivity).
    cbn [map ingest_loop set_dpb dpb write_idx rollovers last_poll
         batches start_ts fst snd].
    repeat split.
Qed.

Lemma shrink_halves_uncounted_witness :
  exists fx st',
    pass v3 "x" (mkState 40 "idx-000001" 0 0 0 0)
         (mkAnswers (HttpResponse (mkResponse 413 "" (Raise ValueError))) 0
                    (HttpRaises Timeout) (HttpRaises Timeout) (Return tt)
                    (HttpRaises Timeout))
    = (fx, Continue st')
    /\ dpb st' = Z.max 1 (40 / 2)
    /\ batches st' = 0
    /\ rollovers st' = 0
    /\ write_idx st' = "idx-000001"
    /\ posted fx = [40].
Proof.
  apply (proj1 shrink_halves_uncounted v3 "x"
           (mkState 40 "idx-000001" 0 0 0 0)
           (mkAnswers (HttpResponse (mkResponse 413 "" (Raise ValueError))) 0
                      (HttpRaises Timeout) (HttpRaises Timeout) (Return tt)
                      (HttpRaises Timeout))).
  reflexivity.
Defined.

(** ** Item-level failures *)

Lemma after_accept_state cfg st a :
  match control_state (snd (after_accept cfg st a)) with
  | Some st' => batches st' = batches st + 1 /\ dpb st' = dpb st
  | None => True
  end.
Proof.
  unfold after_accept. cbv zeta. destruct (Qle_bool _ _).
  - pose proof (poll_state cfg (clock a) (count_batch st) a) as H.
    destruct (get_write_index ALIAS (alias_answer a)) as [current|e].
    + destruct (control_state _) as [st'|]; [|exact I].
      destruct H as (_ & _ & Hd & Hb & _). rewrite Hb, Hd. split; reflexivity.
    + rewrite H. exact I.
  - rewrite cap_and_progress_state. split; reflexivity.
Qed.

(** C9, as stated, fails for the data-stream sender the claim cites: an
    accepted response whose body sets [errors] makes [post_bulk] raise. *)
Lemma datastream_raises_on_item_errors :
  DataStream.post_bulk
    (HttpResponse (mkResponse 200 "" (Return (JObj [("errors", JBool true)]))))
  = Raise (RuntimeError BulkItemErrors).
Proof. reflexivity. Qed.

(** C9 (amended): in the alias-rollover scripts an accepted bulk response
    whose body sets the errors flag is only logged: the send returns the full
    item count, the pass goes on exactly as after any accepted send (one bulk
    request, the batch counted, the batch size kept), and nothing is sent
    again.  The data-stream script's sender raises on the same response. *)
Theorem item_errors_only_logged (r : response) (items : list (string * json))
  (flag : json) :
  status_code r < 300 ->
  json_body r = Return (JObj items) ->
  assoc "errors" items = Some flag ->
  truthy flag = true ->
  (forall docs : Z,
      post_bulk_with_adapt (HttpResponse r) docs
      = ([Print ItemErrorsPresent], Return docs))
  /\ (forall cfg payload st a,
        bulk_answer a = HttpResponse r ->
        0 <= dpb st ->
        pass cfg payload st a
        = (PostBulk ALIAS (dpb st) (bulk_ndjson payload (dpb st))
             :: Print ItemErrorsPresent :: Sleep (2 # 100)
             :: fst (after_accept cfg st a),
           snd (after_accept cfg st a))
        /\ (forall o, after_accept cfg st (with_bulk o a)
                      = after_accept cfg st a)
        /\ posted (fst (pass cfg payload st a)) = [dpb st]
        /\ match control_state (snd (pass cfg payload st a)) with
           | Some st' => batches st' = batches st + 1 /\ dpb st' = dpb st
           | None => True
           end)
  /\ DataStream.post_bulk (HttpResponse r) = Raise (RuntimeError BulkItemErrors).
Proof.
  intros Hs Hj He Ht. apply Z.leb_gt in Hs.
  assert (Hpost : forall docs : Z,
             post_bulk_with_adapt (HttpResponse r) docs
             = ([Print ItemErrorsPresent], Return docs)).
  { intros docs. unfold post_bulk_with_adapt. rewrite Hs, Hj. simpl.
    rewrite He, Ht. reflexivity. }
  split; [exact Hpost|]. split.
  - intros cfg payload st a Ha Hd.
    assert (Hp : pass cfg payload st a
                 = (PostBulk ALIAS (dpb st) (bulk_ndjson payload (dpb st))
                      :: Print ItemErrorsPresent :: Sleep (2 # 100)
                      :: fst (after_accept cfg st a),
                    snd (after_accept cfg st a))).
    { rewrite (pass_accepted cfg payload st a [Print ItemErrorsPresent]);
        [reflexivity| |exact Hd]. rewrite Ha. apply Hpost. }
    split; [exact Hp|]. split; [reflexivity|].
    split; [apply pass_posts_once|]. rewrite Hp. simpl snd.
    apply after_accept_state.
  - unfold DataStream.post_bulk. rewrite Hs, Hj. simpl. rewrite He, Ht.
    reflexivity.
Qed.

Lemma item_errors_only_logged_witness :
  let r := mkResponse 200 "" (Return (JObj [("errors", JBool true)])) in
  (forall docs : Z,
      post_bulk_with_adapt (HttpResponse r) docs
      = ([Print ItemErrorsPresent], Return docs))
  /\ (forall cfg payload st a,
        bulk_answer a = HttpResponse r ->
        0 <= dpb st ->
        pass cfg payload st a
        = (PostBulk ALIAS (dpb st) (bulk_ndjson payload (dpb st))
             :: Print ItemErrorsPresent :: Sleep (2 # 100)
             :: fst (after_accept cfg st a),
           snd (after_accept cfg st a))
        /\ (forall o, after_accept cfg st (with_bulk o a)
                      = after_accept cfg st a)
        /\ posted (fst (pass cfg payload st a)) = [dpb st]
        /\ match control_state (snd (pass cfg payload st a)) with
           | Some st' => batches st' = batches st + 1 /\ dpb st' = dpb st
           | None => True
           end)
  /\ DataStream.post_bulk (HttpResponse r) = Raise (RuntimeError BulkItemErrors).
Proof.
  apply (item_errors_only_logged
           (mkResponse 200 "" (Return (JObj [("errors", JBool true)])))
           [("errors", JBool true)] (JBool true)); reflexivity.
Defined.

(** ** Rotation accounting *)

Lemma try_set_fast_resolves (index : string) (on : bool) (o : http_outcome) :
  resolved_names (try_set_fast index on o) = [].
Proof. unfold try_set_fast. destruct (set_fast index on o); reflexivity. Qed.

Lemma cap_and_progress_resolves cfg now st :
  resolved_names (fst (cap_and_progress cfg now st)) = [].
Proof.
  unfold cap_and_progress.
  destruct (Qgtb _ _); [reflexivity|]. destruct (_ =? 0); reflexivity.
Qed.

Lemma on_rollover_resolves cfg now st a current :
  resolved_names (fst (on_rollover cfg now st a current)) = [].
Proof.
  unfold on_rollover.
  pose proof (cap_and_progress_resolves cfg now
                (set_last_poll now
                   (set_write_idx current (count_rollover st)))) as E.
  destruct (cap_and_progress cfg now _) as [fx4 c4]. simpl in E.
  destruct (manages cfg); [destruct (managed_answer a)|];
    try destruct (TARGET_ROLLOVERS cfg <=? _);
    cbn [fst]; rewrite ?resolved_names_app; cbn [resolved_names];
    rewrite ?try_set_fast_resolves, ?E; reflexivity.
Qed.

Lemma poll_resolves cfg now st a :
  resolved_names (fst (poll cfg now st a))
  = match get_write_index ALIAS (alias_answer a) with
    | Return current => [current]
    | Raise _ => []
    end.
Proof.
  unfold poll.
  destruct (get_write_index ALIAS (alias_answer a)) as [current|e];
    [|reflexivity].
  destruct (negb (String.eqb current (write_idx st))).
  - pose proof (on_rollover_resolves cfg now st a current) as H.
    destruct (on_rollover cfg now st a current). simpl in *. now rewrite H.
  - pose proof (cap_and_progress_resolves cfg now (set_last_poll now st)) as H.
    destruct (cap_and_progress cfg now (set_last_poll now st)).
    simpl in *. now rewrite H.
Qed.

Lemma post_bulk_with_adapt_resolves (o : http_outcome) (docs : Z) :
  resolved_names (fst (post_bulk_with_adapt o docs)) = [].
Proof.
  unfold post_bulk_with_adapt. destruct o as [e|r]; [destruct e; reflexivity|].
  destruct (300 <=? status_code r);
    [destruct (status_in _ _); reflexivity|].
  destruct (json_body r) as [js|e]; [|reflexivity].
  destruct (dict_get js "errors" JNull) as [flag|e]; [|reflexivity].
  destruct (truthy flag); reflexivity.
Qed.

(** One pass: the counter moves by the changes among the names the pass
    resolved (none or one), and the write target is the last name resolved. *)
Lemma after_accept_accounting cfg st a :
  match control_state (snd (after_accept cfg st a)) with
  | Some st' =>
      rollovers st' = rollovers st
                      + count_changes (write_idx st)
                          (resolved_names (fst (after_accept cfg st a)))
      /\ write_idx st' = last (resolved_names (fst (after_accept cfg st a)))
                              (write_idx st)
  | None => True
  end.
Proof.
  unfold after_accept. cbv zeta. destruct (Qle_bool _ _).
  - pose proof (poll_state cfg (clock a) (count_batch st) a) as Hs.
    rewrite poll_resolves.
    destruct (get_write_index ALIAS (alias_answer a)) as [current|e].
    + destruct (control_state _) as [st'|]; [|exact I].
      destruct Hs as (Hro & Hw & _). simpl in *. split; [lia|exact Hw].
    + rewrite Hs. exact I.
  - rewrite cap_and_progress_resolves, cap_and_progress_state.
    simpl. split; [lia|reflexivity].
Qed.

Lemma pass_accounting cfg payload st a :
  match control_state (snd (pass cfg payload st a)) with
  | Some st' =>
      rollovers st' = rollovers st
                      + count_changes (write_idx st)
                          (resolved_names (fst (pass cfg payload st a)))
      /\ write_idx st' = last (resolved_names (fst (pass cfg payload st a)))
                              (write_idx st)
  | None => True
  end.
Proof.
  unfold pass.
  pose proof (post_bulk_with_adapt_resolves (bulk_answer a) (dpb st)) as Hp.
  destruct (post_bulk_with_adapt (bulk_answer a) (dpb st)) as [log sent].
  simpl in Hp. destruct sent as [sent|e]; [|exact I].
  destruct (sent <? 0).
  - cbn [snd fst control_state].
    rewrite resolved_names_app. cbn [resolved_names]. rewrite Hp. simpl.
    split; [lia|reflexivity].
  - pose proof (after_accept_accounting cfg st a) as H.
    destruct (after_accept cfg st a) as [fx c]. cbn [snd fst] in *.
    rewrite resolved_names_app. cbn [resolved_names]. rewrite Hp.
    exact H.
Qed.

Lemma last_cons (n d : string) (names : list string) :
  last (n :: names) d = last names n.
Proof.
  revert n d. induction names as [|m names IH]; intros n d; [reflexivity|].
  change (last (n :: m :: names) d) with (last (m :: names) d).
  rewrite (IH m d), (IH m n). reflexivity.
Qed.

Lemma count_changes_app (current : string) (names names' : list string) :
  count_changes current (names ++ names')
  = count_changes current names + count_changes (last names current) names'.
Proof.
  revert current. induction names as [|n names IH]; intros current.
  - simpl. lia.
  - cbn [app count_changes]. rewrite IH, last_cons. lia.
Qed.

Lemma last_app_default (names names' : list string) (d : string) :
  last (names ++ names') d = last names' (last names d).
Proof.
  revert d. induction names as [|n names IH]; intros d; [reflexivity|].
  cbn [app]. rewrite !last_cons. apply IH.
Qed.

Lemma ingest_loop_accounting cfg payload feed : forall st,
  match state_of (snd (ingest_loop cfg payload st feed)) with
  | Some st' =>
      rollovers st' = rollovers st
                      + count_changes (write_idx st)
                          (resolved_names (fst (ingest_loop cfg payload st feed)))
      /\ write_idx st'
         = last (resolved_names (fst (ingest_loop cfg payload st feed)))
                (write_idx st)
  | None => True
  end.
Proof.
  induction feed as [|a feed IH]; intros st.
  - simpl. split; [lia|reflexivity].
  - cbn [ingest_loop]. pose proof (pass_accounting cfg payload st a) as H.
    destruct (pass cfg payload st a) as [fx c]. cbn [fst snd] in H.
    destruct c as [st1|st1|e]; cbn [control_state] in H.
    + specialize (IH st1).
      destruct (ingest_loop cfg payload st1 feed) as [fx' o].
      cbn [fst snd] in *. destruct (state_of o) as [st'|]; [|exact I].
      destruct H as (H1 & H2). destruct IH as (I1 & I2).
      rewrite resolved_names_app, count_changes_app, last_app_default.
      rewrite <- H2. split; [lia|exact I2].
    + exact H.
    + exact I.
Qed.

(** C4: a poll adds exactly one to the rollover counter when the resolved
    write target differs from the current one and nothing when it is the
    same, and makes it the current one, so that over any run the counter
    grows by the number of identity changes along the resolved names.  When
    five polls resolve idx-000001 and the next ones idx-000002, exactly one
    rollover is counted, idx-000001 is set durable and idx-000002 fast. *)
Theorem rotation_accounting :
  (forall cfg now st a current,
      get_write_index ALIAS (alias_answer a) = Return current ->
      match control_state (snd (poll cfg now st a)) with
      | Some st' =>
          rollovers st' = rollovers st
                          + (if String.eqb current (write_idx st) then 0 else 1)
          /\ write_idx st' = current
      | None => String.eqb current (write_idx st) = false
                /\ manages cfg = true /\ exists e, managed_answer a = Raise e
      end)
  /\ (forall cfg payload st feed,
        match state_of (snd (ingest_loop cfg payload st feed)) with
        | Some st' =>
            rollovers st' = rollovers st
                            + count_changes (write_idx st)
                                (resolved_names
                                   (fst (ingest_loop cfg payload st feed)))
            /\ write_idx st'
               = last (resolved_names (fst (ingest_loop cfg payload st feed)))
                      (write_idx st)
        | None => True
        end)
  /\ (forall cfg, cfg = v3 \/ cfg = v4 ->
        resolved_names (fst (scenario_C cfg))
        = ["idx-000001"; "idx-000001"; "idx-000001"; "idx-000001";
           "idx-000001"; "idx-000001"; "idx-000002"; "idx-000002";
           "idx-000002"]
        /\ option_map rollovers (state_of (snd (scenario_C cfg))) = Some 1
        /\ option_map write_idx (state_of (snd (scenario_C cfg)))
           = Some "idx-000002"
        /\ messages (fst (scenario_C cfg))
           = [SizingReport (100 * MiB) 1 40;
              RolloverSeen 1 "idx-000001" "idx-000002"]
        /\ settings_puts (fst (scenario_C cfg))
           = [("idx-000001", true); ("idx-000001", false);
              ("idx-000002", true)]).
Proof.
  split; [|split].
  - intros cfg now st a current H.
    pose proof (poll_state cfg now st a) as P. rewrite H in P.
    destruct (control_state _) as [st'|]; [|exact P].
    destruct P as (P1 & P2 & _). split; assumption.
  - intros cfg payload st feed. apply ingest_loop_accounting.
  - intros cfg [-> | ->]; vm_compute; repeat split.
Qed.

Lemma rotation_accounting_witness :
  match control_state
          (snd (poll v3 (inject_Z 1060)
                     (mkState 40 "idx-000001" 0 (inject_Z 1050) 6
                              (inject_Z 1000))
                     (accepted_pass 1060 after_rollover))) with
  | Some st' =>
      rollovers st' = 0 + (if String.eqb "idx-000002" "idx-000001"
                           then 0 else 1)
      /\ write_idx st' = "idx-000002"
  | None => String.eqb "idx-000002" "idx-000001" = false
            /\ manages v3 = true
            /\ exists e, managed_answer (accepted_pass 1060 after_rollover)
                         = Raise e
  end.
Proof.
  apply (proj1 rotation_accounting v3 (inject_Z 1060)
           (mkState 40 "idx-000001" 0 (inject_Z 1050) 6 (inject_Z 1000))
           (accepted_pass 1060 after_rollover) "idx-000002").
  reflexivity.
Defined.

(** ** Termination *)

Lemma set_dpb_set_dpb (d d' : Z) (st : state) :
  set_dpb d (set_dpb d' st) = set_dpb d st.
Proof. reflexivity. Qed.

Lemma set_dpb_same (st : state) : set_dpb (dpb st) st = st.
Proof. destruct st; reflexivity. Qed.

(** C5 fails on the code: a pass whose send ends in a shrink signal goes back
    to the top of the loop ([continue]) before the clock is read, so against
    a backend that answers every bulk with a shrink signal the loop is still
    running after any number of passes, whatever the clock says; it only
    halves the batch size. *)
Theorem shrink_passes_skip_the_time_cap cfg payload (o : http_outcome)
  (feed : list answers) :
  shrink_condition o = true ->
  forall st,
  exists d,
    snd (ingest_loop cfg payload st (map (with_bulk o) feed))
    = Running (set_dpb d st).
Proof.
  intros S. induction feed as [|a feed IH]; intros st.
  - exists (dpb st). simpl. now rewrite set_dpb_same.
  - cbn [map ingest_loop]. rewrite pass_shrink by exact S.
    destruct (IH (set_dpb (Z.max 1 (dpb st / 2)) st)) as (d & Hd).
    destruct (ingest_loop cfg payload _ (map (with_bulk o) feed)) as [fx out].
    simpl in *. exists d. rewrite Hd. reflexivity.
Qed.

(** Three passes read at two hours, one day and ten days after the start. *)
Lemma shrink_passes_skip_the_time_cap_witness :
  exists d,
    snd (ingest_loop v3 "x"
           (mkState 40 "idx-000001" 0 0 0 (inject_Z 1000))
           (map (with_bulk too_large)
                [accepted_pass 8200 before_rollover;
                 accepted_pass 87400 before_rollover;
                 accepted_pass 865000 before_rollover]))
    = Running (set_dpb d (mkState 40 "idx-000001" 0 0 0 (inject_Z 1000))).
Proof.
  apply (shrink_passes_skip_the_time_cap v3 "x" too_large
           [accepted_pass 8200 before_rollover;
            accepted_pass 87400 before_rollover;
            accepted_pass 865000 before_rollover]).
  reflexivity.
Defined.

Lemma cap_and_progress_past_cap cfg now st :
  Qgtb ((now - start_ts st) / 60) (inject_Z (MAX_MINUTES cfg)) = true ->
  snd (cap_and_progress cfg now st) = Break st.
Proof. intros H. unfold cap_and_progress. rewrite H. reflexivity. Qed.

(** On the accepted path the cap does stop the loop: a pass whose send is
    accepted and whose clock reading is more than [MAX_MINUTES] minutes past
    the start never goes round again. *)
Lemma pass_stops_past_cap cfg payload st a log :
  post_bulk_with_adapt (bulk_answer a) (dpb st) = (log, Return (dpb st)) ->
  0 <= dpb st ->
  Qgtb ((clock a - start_ts st) / 60) (inject_Z (MAX_MINUTES cfg)) = true ->
  match snd (pass cfg payload st a) with
  | Continue _ => False
  | Break _ => True
  | Raised _ => True
  end.
Proof.
  intros Hp Hd Hcap. rewrite (pass_accepted cfg payload st a log Hp Hd).
  cbn [snd]. unfold after_accept. cbv zeta.
  destruct (Qle_bool _ _).
  - unfold poll.
    destruct (get_write_index ALIAS (alias_answer a)) as [current|e];
      [|exact I].
    destruct (negb (String.eqb current (write_idx (count_batch st)))).
    + unfold on_rollover.
      destruct (if manages cfg then managed_answer a else Return tt);
        [|exact I].
      cbv zeta. destruct (TARGET_ROLLOVERS cfg <=? _); [exact I|].
      pose proof (cap_and_progress_past_cap cfg (clock a)
                    (set_last_poll (clock a)
                       (set_write_idx current
                          (count_rollover (count_batch st)))) Hcap) as H.
      destruct (cap_and_progress cfg (clock a) _) as [fx c]. simpl in *.
      rewrite H. exact I.
    + pose proof (cap_and_progress_past_cap cfg (clock a)
                    (set_last_poll (clock a) (count_batch st)) Hcap) as H.
      destruct (cap_and_progress cfg (clock a) _) as [fx c]. simpl in *.
      rewrite H. exact I.
  - rewrite (cap_and_progress_past_cap cfg (clock a) (count_batch st) Hcap).
    exact I.
Qed.


Lemma accepted_returns (o : http_outcome) (docs : Z) :
  accepted o = true ->
  exists log, post_bulk_with_adapt o docs = (log, Return docs).
Proof.
  destruct o as [e|r]; [discriminate|]. cbn [accepted].
  intros H. apply andb_true_iff in H as [Hs Hj].
  apply Z.ltb_lt in Hs. unfold post_bulk_with_adapt.
  replace (300 <=? status_code r) with false
    by (symmetry; apply Z.leb_gt; exact Hs).
  destruct (json_body r) as [js|e]; [|discriminate].
  destruct js; try discriminate. cbn [dict_get].
  destruct (truthy _); eexists; reflexivity.
Qed.

Lemma after_accept_keeps cfg st a :
  match control_state (snd (after_accept cfg st a)) with
  | Some st' => dpb st' = dpb st /\ start_ts st' = start_ts st
  | None => True
  end.
Proof.
  unfold after_accept. cbv zeta. destruct (Qle_bool _ _).
  - pose proof (poll_state cfg (clock a) (count_batch st) a) as H.
    destruct (get_write_index ALIAS (alias_answer a)) as [current|e].
    + destruct (control_state _) as [st'|]; [|exact I].
      destruct H as (_ & _ & Hd & _ & Hs). rewrite Hd, Hs. split; reflexivity.
    + rewrite H. exact I.
  - rewrite cap_and_progress_state. split; reflexivity.
Qed.

(** When every send is accepted, the loop does not outlive the first pass
    whose clock reading is more than [MAX_MINUTES] minutes past the start. *)
Theorem cap_bounds_accepted_runs cfg payload (feed : list answers) :
  forall st,
  0 <= dpb st ->
  forallb (fun a => accepted (bulk_answer a)) feed = true ->
  existsb (past_cap cfg st) feed = true ->
  match snd (ingest_loop cfg payload st feed) with
  | Running _ => False
  | Finished _ => True
  | Failed _ => True
  end.
Proof.
  induction feed as [|a feed IH]; intros st Hd Hacc Hcap; [discriminate|].
  cbn [forallb existsb] in Hacc, Hcap.
  apply andb_true_iff in Hacc as [Ha Hacc].
  destruct (accepted_returns _ (dpb st) Ha) as (log & Hp).
  cbn [ingest_loop].
  pose proof (pass_stops_past_cap cfg payload st a log Hp Hd) as Hstop.
  pose proof (after_accept_keeps cfg st a) as Hkeep.
  rewrite (pass_accepted cfg payload st a log Hp Hd) in *. cbn [snd] in *.
  destruct (snd (after_accept cfg st a)) as [st1|st1|e]; try exact I.
  cbn [control_state] in Hkeep. destruct Hkeep as (Kd & Ks).
  apply orb_true_iff in Hcap as [Hnow|Hlater].
  - exfalso. apply Hstop. exact Hnow.
  - assert (Hcap1 : existsb (past_cap cfg st1) feed = true).
    { rewrite <- Hlater. clear -Ks. induction feed as [|b feed IHf];
        [reflexivity|]. cbn [existsb]. rewrite IHf. unfold past_cap.
      rewrite Ks. reflexivity. }
    specialize (IH st1 ltac:(lia) Hacc Hcap1).
    destruct (ingest_loop cfg payload st1 feed) as [fx out]. exact IH.
Qed.

Lemma cap_bounds_accepted_runs_witness :
  match snd (ingest_loop v3 "x"
               (mkState 40 "idx-000001" 0 0 0 (inject_Z 1000))
               [accepted_pass 1010 before_rollover;
                accepted_pass 4601 before_rollover;
                accepted_pass 4611 before_rollover]) with
  | Running _ => False
  | Finished _ => True
  | Failed _ => True
  end.
Proof.
  apply (cap_bounds_accepted_runs v3 "x"
           [accepted_pass 1010 before_rollover;
            accepted_pass 4601 before_rollover;
            accepted_pass 4611 before_rollover]
           (mkState 40 "idx-000001" 0 0 0 (inject_Z 1000))).
  - simpl. lia.
  - reflexivity.
  - reflexivity.
Defined.

Lemma cap_and_progress_bounded cfg now st :
  rollovers st < TARGET_ROLLOVERS cfg ->
  match snd (cap_and_progress cfg now st) with
  | Continue st' => rollovers st' < TARGET_ROLLOVERS cfg
  | Break st' => rollovers st' <= TARGET_ROLLOVERS cfg
  | Raised _ => True
  end.
Proof.
  intros H. unfold cap_and_progress.
  destruct (Qgtb _ _); [simpl; lia|]. destruct (_ =? 0); exact H.
Qed.

Lemma after_accept_bounded cfg st a :
  rollovers st < TARGET_ROLLOVERS cfg ->
  match snd (after_accept cfg st a) with
  | Continue st' => rollovers st' < TARGET_ROLLOVERS cfg
  | Break st' => rollovers st' <= TARGET_ROLLOVERS cfg
  | Raised _ => True
  end.
Proof.
  intros Hr. unfold after_accept. cbv zeta.
  destruct (Qle_bool _ _); [|apply cap_and_progress_bounded; exact Hr].
  unfold poll.
  destruct (get_write_index ALIAS (alias_answer a)) as [current|e];
    [|exact I].
  destruct (negb (String.eqb current (write_idx (count_batch st)))).
  - unfold on_rollover.
    destruct (if manages cfg then managed_answer a else Return tt);
      [|exact I].
    cbv zeta. destruct (TARGET_ROLLOVERS cfg <=? _) eqn:E.
    + simpl. simpl in E. lia.
    + apply Z.leb_gt in E.
      pose proof (cap_and_progress_bounded cfg (clock a)
                    (set_last_poll (clock a)
                       (set_write_idx current
                          (count_rollover (count_batch st)))) E) as H.
      destruct (cap_and_progress cfg (clock a) _) as [fx c]. exact H.
  - pose proof (cap_and_progress_bounded cfg (clock a)
                  (set_last_poll (clock a) (count_batch st)) Hr) as H.
    destruct (cap_and_progress cfg (clock a) _) as [fx c]. exact H.
Qed.

Lemma pass_rollovers_bounded cfg payload st a :
  rollovers st < TARGET_ROLLOVERS cfg ->
  match snd (pass cfg payload st a) with
  | Continue st' => rollovers st' < TARGET_ROLLOVERS cfg
  | Break st' => rollovers st' <= TARGET_ROLLOVERS cfg
  | Raised _ => True
  end.
Proof.
  intros Hr. unfold pass.
  destruct (post_bulk_with_adapt (bulk_answer a) (dpb st)) as [log sent].
  destruct sent as [sent|e]; [|exact I].
  destruct (sent <? 0); [exact Hr|].
  pose proof (after_accept_bounded cfg st a Hr) as H.
  destruct (after_accept cfg st a) as [fx c]. exact H.
Qed.

(** The rollover counter never passes the target: it is below the target
    while the loop runs and at most the target when the loop has stopped. *)
Theorem rollovers_never_exceed_target cfg payload (feed : list answers) :
  forall st,
  rollovers st < TARGET_ROLLOVERS cfg ->
  match snd (ingest_loop cfg payload st feed) with
  | Running st' => rollovers st' < TARGET_ROLLOVERS cfg
  | Finished st' => rollovers st' <= TARGET_ROLLOVERS cfg
  | Failed _ => True
  end.
Proof.
  induction feed as [|a feed IH]; intros st Hr; [exact Hr|].
  cbn [ingest_loop].
  pose proof (pass_rollovers_bounded cfg payload st a Hr) as H.
  destruct (pass cfg payload st a) as [fx c]. cbn [snd] in H.
  destruct c as [st1|st1|e]; [|exact H|exact I].
  specialize (IH st1 H).
  destruct (ingest_loop cfg payload st1 feed) as [fx' out]. exact IH.
Qed.

Lemma rollovers_never_exceed_target_witness :
  match snd (ingest_loop v3 "x"
               (mkState 40 "idx-000001" 0 0 0 (inject_Z 1000))
               scenario_C_feed) with
  | Running st' => rollovers st' < TARGET_ROLLOVERS v3
  | Finished st' => rollovers st' <= TARGET_ROLLOVERS v3
  | Failed _ => True
  end.
Proof.
  apply (rollovers_never_exceed_target v3 "x" scenario_C_feed
           (mkState 40 "idx-000001" 0 0 0 (inject_Z 1000))).
  reflexivity.
Defined.

(** Scenario D: with a target of three rollovers seen at polls 4, 9 and 15,
    the run stops in the pass of the fifteenth poll: fifteen bulk requests
    are made and no more, and the last write target is set durable. *)
Theorem scenario_D_stops_at_goal :
  option_map rollovers (state_of (snd scenario_D)) = Some 3
  /\ (exists st, snd scenario_D = Finished st)
  /\ List.length (posted (fst scenario_D)) = 15%nat
  /\ resolved_names (fst scenario_D)
     = ("idx-000001" :: firstn 15 scenario_D_names)%list
  /\ messages (fst scenario_D)
     = [SizingReport (100 * MiB) 1 40;
        RolloverSeen 1 "idx-000001" "idx-000002";
        RolloverSeen 2 "idx-000002" "idx-000003";
        Progress 10 40;
        RolloverSeen 3 "idx-000003" "idx-000004";
        TargetReached]
  /\ last (settings_puts (fst scenario_D)) ("", true) = ("idx-000004", false).
Proof.
  vm_compute. split; [reflexivity|]. split; [eexists; reflexivity|].
  repeat split.
Qed.

(** ** Write-index resolution *)

Lemma scan_write_index_first (alias : string) (items : list (string * json)) :
  forallb (fun im => well_shaped alias (snd im)) items = true ->
  scan_write_index alias items
  = match flagged alias items with
    | [] => Raise (RuntimeError (WriteIndexNotFound alias))
    | idx :: _ => Return idx
    end.
Proof.
  induction items as [|[idx meta] items IH]; intros W; [reflexivity|].
  cbn [forallb snd] in W. apply andb_true_iff in W as [Wm Wi].
  unfold flagged. cbn [scan_write_index filter snd].
  unfold well_shaped, carries_flag in *.
  destruct (dict_get meta "aliases" empty_dict) as [aliases|e];
    [|discriminate Wm]. cbn [bind] in *.
  destruct (dict_get aliases alias empty_dict) as [entry|e];
    [|discriminate Wm]. cbn [bind] in *.
  destruct (dict_get entry "is_write_index" JNull) as [flag|e];
    [|discriminate Wm]. cbn [bind] in *.
  destruct (truthy flag); [reflexivity|]. apply IH. exact Wi.
Qed.

(** C6, as stated, fails: when two indices carry the write flag the scan
    returns the first of them instead of raising. *)
Lemma two_write_indices_first_wins :
  get_write_index ALIAS
    (alias_reply [("idx-000001", alias_entry true);
                  ("idx-000002", alias_entry true)])
  = Return "idx-000001".
Proof. reflexivity. Qed.

(** C6 (amended): on an alias-metadata response (status below 300, a JSON
    object whose entries have the documented shape) [get_write_index] returns
    the first index, in the order of the response, that carries the write
    flag, and raises the "not found" error when no index carries it; so it
    returns the flagged index when exactly one carries the flag, and the
    first flagged one, without raising, when several do. *)
Theorem get_write_index_first_flagged (alias : string) (r : response)
  (items : list (string * json)) :
  status_code r < 300 ->
  json_body r = Return (JObj items) ->
  forallb (fun im => well_shaped alias (snd im)) items = true ->
  get_write_index alias (HttpResponse r)
  = match flagged alias items with
    | [] => Raise (RuntimeError (WriteIndexNotFound alias))
    | idx :: _ => Return idx
    end.
Proof.
  intros Hs Hj W. unfold get_write_index, req.
  replace (300 <=? status_code r) with false
    by (symmetry; apply Z.leb_gt; exact Hs).
  cbn [bind]. rewrite Hj. cbn [bind dict_items].
  apply scan_write_index_first. exact W.
Qed.

Lemma get_write_index_first_flagged_witness :
  get_write_index ALIAS
    (HttpResponse
       (mkResponse 200 ""
          (Return (JObj [("idx-000001", alias_entry false);
                         ("idx-000002", alias_entry true)]))))
  = match flagged ALIAS [("idx-000001", alias_entry false);
                            ("idx-000002", alias_entry true)] with
    | [] => Raise (RuntimeError (WriteIndexNotFound ALIAS))
    | idx :: _ => Return idx
    end.
Proof.
  apply (get_write_index_first_flagged ALIAS
           (mkResponse 200 ""
              (Return (JObj [("idx-000001", alias_entry false);
                             ("idx-000002", alias_entry true)])))
           [("idx-000001", alias_entry false);
            ("idx-000002", alias_entry true)]); reflexivity.
Defined.

Example get_write_index_examples :
  get_write_index ALIAS before_rollover = Return "idx-000001"
  /\ get_write_index ALIAS after_rollover = Return "idx-000002"
  /\ get_write_index ALIAS (alias_reply [("idx-000001", alias_entry false)])
     = Raise (RuntimeError (WriteIndexNotFound ALIAS))
  /\ get_write_index ALIAS (alias_reply [])
     = Raise (RuntimeError (WriteIndexNotFound ALIAS))
  /\ get_write_index ALIAS
       (HttpResponse (mkResponse 404 "missing" (Raise ValueError)))
     = Raise (RuntimeError (HttpStatus "GET" "/_alias/bench-rollover" 404
                                       "missing")).
Proof. repeat split. Qed.

(** ** Encoder *)

Lemma Z_of_byte_of_Z (z : Z) : Z_of_byte (byte_of_Z z) = z mod 256.
Proof.
  unfold Z_of_byte, byte_of_Z. rewrite ascii_of_byte_of_ascii.
  assert (H : 0 <= z mod 256 < 256) by (apply Z.mod_pos_bound; lia).
  rewrite N_ascii_embedding.
  - apply Z2N.id. lia.
  - change 256%N with (Z.to_N 256). apply Z2N.inj_lt; lia.
Qed.

Lemma write32u_in_range (v : Z) :
  0 <= v < 2 ^ 32 -> write32u v = Return (le32 v).
Proof.
  intros [H0 H1]. unfold write32u.
  replace (0 <=? v) with true by (symmetry; apply Z.leb_le; exact H0).
  replace (v <? 2 ^ 32) with true by (symmetry; apply Z.ltb_lt; exact H1).
  reflexivity.
Qed.

Lemma le32_value (v : Z) :
  0 <= v < 4294967296 ->
  v = v mod 256 + 256 * ((v / 256) mod 256) + 65536 * ((v / 65536) mod 256)
      + 16777216 * ((v / 16777216) mod 256).
Proof.
  intros H.
  replace (v / 65536) with (v / 256 / 256) by (rewrite Z.div_div by lia; reflexivity).
  replace (v / 16777216) with (v / 256 / 256 / 256) by (rewrite !Z.div_div by lia; reflexivity).
  pose proof (Z.div_mod v 256 ltac:(lia)).
  pose proof (Z.div_mod (v / 256) 256 ltac:(lia)).
  pose proof (Z.div_mod (v / 256 / 256) 256 ltac:(lia)).
  assert (v / 256 / 256 / 256 < 256).
  { rewrite !Z.div_div by lia. apply Z.div_lt_upper_bound; lia. }
  assert (0 <= v / 256 / 256 / 256).
  { rewrite !Z.div_div by lia. apply Z.div_pos; lia. }
  rewrite (Z.mod_small (v / 256 / 256 / 256)) by lia.
  lia.
Qed.

Lemma le32_injective (v w : Z) :
  0 <= v < 2 ^ 32 -> 0 <= w < 2 ^ 32 -> le32 v = le32 w -> v = w.
Proof.
  intros Hv Hw H. unfold le32 in H. injection H as H0 H1 H2 H3.
  apply (f_equal Z_of_byte) in H0, H1, H2, H3.
  rewrite !Z_of_byte_of_Z in H0, H1, H2, H3.
  change (Z.pow_pos 2 8) with 256 in *.
  change (Z.pow_pos 2 16) with 65536 in *.
  change (Z.pow_pos 2 24) with 16777216 in *.
  change (2 ^ 32) with 4294967296 in *.
  rewrite (le32_value v Hv), (le32_value w Hw). congruence.
Qed.

Lemma encode_in_range (deflate : list byte -> list byte)
  (crc32 : list byte -> Z) (t : Z) (payload : string) (n : Z) :
  (forall data, 0 <= crc32 data < 2 ^ 32) ->
  0 <= t < 2 ^ 32 ->
  encode deflate crc32 t payload n
  = Return ([x1f; x8b; x08; x00] ++ le32 t
            ++ [x02; xff] ++ deflate (utf8 (bulk_ndjson payload n))
            ++ le32 (crc32 (utf8 (bulk_ndjson payload n)))
            ++ le32 (Z.of_nat (List.length (utf8 (bulk_ndjson payload n)))
                     mod 2 ^ 32))%list.
Proof.
  intros Hc Ht. unfold encode, gzip_bytes, gzip_header, gzip_trailer.
  rewrite (write32u_in_range t Ht), (write32u_in_range _ (Hc _)).
  rewrite write32u_in_range by (apply Z.mod_pos_bound; lia).
  cbn [bind]. rewrite <- !app_assoc. reflexivity.
Qed.

(** C8, as stated, fails: [gzip_bytes] opens [GzipFile] without [mtime], so
    the member header carries the second at which the batch is compressed;
    the same batch encoded at second 0 and at second 1 differs in byte 4,
    whatever deflate and the checksum compute. *)
Lemma gzip_stamp_differs :
  exists t1 t2 : Z,
    forall (deflate : list byte -> list byte) (crc32 : list byte -> Z)
           (payload : string) (n : Z),
      (forall data, 0 <= crc32 data < 2 ^ 32) ->
      exists b1 b2 : list byte,
        encode deflate crc32 t1 payload n = Return b1
        /\ encode deflate crc32 t2 payload n = Return b2
        /\ nth_error b1 4 = Some x00
        /\ nth_error b2 4 = Some x01.
Proof.
  exists 0, 1. intros deflate crc32 payload n Hc.
  rewrite !encode_in_range by first [exact Hc | split; [lia|reflexivity]].
  eexists. eexists. split; [reflexivity|]. split; [reflexivity|].
  split; reflexivity.
Qed.

(** C8 (amended): the NDJSON construction is a function of the item count
    and the payload, and the compressed batch is a function of these and of
    the second at which it is compressed: two encodings of the same batch are
    the same bytes except for the four-byte time stamp at offsets 4 to 7 of
    the gzip header, and they are byte-identical exactly when made within the
    same second. *)
Theorem encoder_deterministic_up_to_stamp
  (deflate : list byte -> list byte) (crc32 : list byte -> Z)
  (payload : string) (n t1 t2 : Z) :
  (forall data, 0 <= crc32 data < 2 ^ 32) ->
  0 <= t1 < 2 ^ 32 ->
  0 <= t2 < 2 ^ 32 ->
  exists stamp1 stamp2 rest : list byte,
    encode deflate crc32 t1 payload n
    = Return ([x1f; x8b; x08; x00] ++ stamp1 ++ rest)%list
    /\ encode deflate crc32 t2 payload n
       = Return ([x1f; x8b; x08; x00] ++ stamp2 ++ rest)%list
    /\ List.length stamp1 = 4%nat
    /\ List.length stamp2 = 4%nat
    /\ (stamp1 = stamp2 <-> t1 = t2)
    /\ (encode deflate crc32 t1 payload n = encode deflate crc32 t2 payload n
        <-> t1 = t2).
Proof.
  intros Hc H1 H2.
  exists (le32 t1), (le32 t2).
  eexists. rewrite !encode_in_range by assumption.
  split; [reflexivity|]. split; [reflexivity|].
  split; [reflexivity|]. split; [reflexivity|].
  assert (Hinj : le32 t1 = le32 t2 <-> t1 = t2).
  { split; [apply le32_injective; assumption|intros ->; reflexivity]. }
  split; [exact Hinj|]. split.
  - intros H. apply Hinj.
    assert (E : forall x y : list byte, Return x = Return y -> x = y)
      by (intros x y [=]; assumption).
    apply E, app_inv_head, app_inv_tail in H. exact H.
  - intros ->. reflexivity.
Qed.

Lemma encoder_deterministic_up_to_stamp_witness :
  exists stamp1 stamp2 rest : list byte,
    encode (fun data => data) (fun _ => 0) 1762344000 "x" 1
    = Return ([x1f; x8b; x08; x00] ++ stamp1 ++ rest)%list
    /\ encode (fun data => data) (fun _ => 0) 1762344001 "x" 1
       = Return ([x1f; x8b; x08; x00] ++ stamp2 ++ rest)%list
    /\ List.length stamp1 = 4%nat
    /\ List.length stamp2 = 4%nat
    /\ (stamp1 = stamp2 <-> 1762344000 = 1762344001)
    /\ (encode (fun data => data) (fun _ => 0) 1762344000 "x" 1
        = encode (fun data => data) (fun _ => 0) 1762344001 "x" 1
        <-> 1762344000 = 1762344001).
Proof.
  apply (encoder_deterministic_up_to_stamp
           (fun data => data) (fun _ => 0) "x" 1 1762344000 1762344001).
  - intros data. split; [lia|reflexivity].
  - split; [lia|reflexivity].
  - split; [lia|reflexivity].
Defined.

Example bulk_ndjson_one :
  bulk_ndjson "a/b" 1
  = "{" ++ quoted "index" ++ ":{}}" ++ nl
    ++ "{" ++ quoted "@timestamp" ++ ":" ++ quoted "2025-11-05T12:00:00Z"
    ++ "," ++ quoted "service.name" ++ ":" ++ quoted "bench"
    ++ "," ++ quoted "log.level" ++ ":" ++ quoted "info"
    ++ "," ++ quoted "message" ++ ":" ++ quoted "a/b" ++ "}" ++ nl.
Proof. reflexivity. Qed.

(** ** Limit discovery *)

Lemma substring_last_of_two (s : string) : forall (i : nat) (a b : ascii),
  substring i 2 s = String a (String b "") ->
  substring (S i) 1 s = String b "".
Proof.
  induction s as [|c s IH]; intros i a b H.
  - destruct i; discriminate H.
  - destruct i as [|i].
    + simpl in H. injection H as _ H. simpl. exact H.
    + simpl in H. simpl. apply (IH i a b H).
Qed.

Lemma endswith_mb_b (s : string) :
  endswith s "mb" = true -> endswith s "b" = true.
Proof.
  unfold endswith. cbn [String.length]. intros H.
  apply andb_true_iff in H as [Hn Hs].
  apply Nat.leb_le in Hn. apply String.eqb_eq in Hs.
  apply andb_true_iff. split; [apply Nat.leb_le; lia|].
  apply String.eqb_eq.
  replace (String.length s - 1)%nat with (S (String.length s - 2)) by lia.
  exact (substring_last_of_two s _ _ _ Hs).
Qed.

Lemma size_of_setting_none (py_int : string -> option Z) (v : json) :
  is_size_string v = false -> size_of_setting py_int v = None.
Proof.
  destruct v; try reflexivity. simpl. intros H.
  destruct (endswith s "mb") eqn:E.
  - apply endswith_mb_b in E. congruence.
  - rewrite H. reflexivity.
Qed.

Lemma size_of_setting_unparsable (py_int : string -> option Z) (s : string) :
  endswith s "b" = true ->
  endswith s "mb" = false ->
  py_int (drop_last 1 s) = None ->
  size_of_setting py_int (JStr s) = Some (Raise ValueError).
Proof.
  intros Hb Hmb Hp. unfold size_of_setting, int_of_str.
  rewrite Hmb, Hb, Hp. reflexivity.
Qed.

Lemma limit_v3_unparsable (py_int : string -> option Z) (js : json)
  (s : string) :
  endswith s "b" = true ->
  endswith s "mb" = false ->
  py_int (drop_last 1 s) = None ->
  selected (LimitsV3.setting_at "persistent" js)
           (LimitsV3.setting_at "transient" js)
           (LimitsV3.setting_at "defaults" js) (JStr s) ->
  LimitsV3.limit_of_settings py_int js = Raise ValueError.
Proof.
  intros Hb Hmb Hp Hsel.
  pose proof (size_of_setting_unparsable py_int s Hb Hmb Hp) as Hbad.
  unfold LimitsV3.limit_of_settings. cbn [LimitsV3.scan_roots].
  destruct Hsel as [P | (v1 & P & N1 & [T | (v2 & T & N2 & D)])].
  - rewrite P. cbn [bind]. rewrite Hbad. reflexivity.
  - rewrite P. cbn [bind]. rewrite (size_of_setting_none py_int v1 N1).
    rewrite T. cbn [bind]. rewrite Hbad. reflexivity.
  - rewrite P. cbn [bind]. rewrite (size_of_setting_none py_int v1 N1).
    rewrite T. cbn [bind]. rewrite (size_of_setting_none py_int v2 N2).
    rewrite D. cbn [bind]. rewrite Hbad. reflexivity.
Qed.

Lemma limit_v4_unparsable (py_int : string -> option Z) (js : json)
  (s : string) :
  endswith s "b" = true ->
  endswith s "mb" = false ->
  py_int (drop_last 1 s) = None ->
  selected (LimitsV4.setting_at "persistent" JNull js)
           (LimitsV4.setting_at "transient" JNull js)
           (LimitsV4.setting_at "defaults" (JStr "100mb") js) (JStr s) ->
  LimitsV4.limit_of_settings py_int js = Raise ValueError.
Proof.
  intros Hb Hmb Hp Hsel.
  pose proof (size_of_setting_unparsable py_int s Hb Hmb Hp) as Hbad.
  unfold LimitsV4.limit_of_settings. cbn [LimitsV4.scan_roots].
  destruct Hsel as [P | (v1 & P & N1 & [T | (v2 & T & N2 & D)])].
  - rewrite P. cbn [bind]. rewrite Hbad. reflexivity.
  - rewrite P. cbn [bind]. rewrite (size_of_setting_none py_int v1 N1).
    rewrite T. cbn [bind]. rewrite Hbad. reflexivity.
  - rewrite P. cbn [bind]. rewrite (size_of_setting_none py_int v1 N1).
    rewrite T. cbn [bind]. rewrite (size_of_setting_none py_int v2 N2).
    rewrite D. cbn [bind]. rewrite Hbad. reflexivity.
Qed.

(** C10: when the [http.max_content_length] the discovery acts on is a string
    that ends in [b] but not in [mb] and whose text before the final [b] the
    builtin [int] rejects (as in ["1gb"]), both scripts' discovery raises
    [ValueError]; it returns neither a parsed value nor the 100 MiB
    default. *)
Theorem unparsable_limit_raises (py_int : string -> option Z) (r : response)
  (js : json) (s : string) :
  status_code r < 300 ->
  json_body r = Return js ->
  endswith s "b" = true ->
  endswith s "mb" = false ->
  py_int (drop_last 1 s) = None ->
  (selected (LimitsV3.setting_at "persistent" js)
            (LimitsV3.setting_at "transient" js)
            (LimitsV3.setting_at "defaults" js) (JStr s) ->
   LimitsV3.get_http_max_content_length_bytes py_int (HttpResponse r)
   = Raise ValueError)
  /\ (selected (LimitsV4.setting_at "persistent" JNull js)
               (LimitsV4.setting_at "transient" JNull js)
               (LimitsV4.setting_at "defaults" (JStr "100mb") js) (JStr s) ->
      LimitsV4.get_http_max_content_length_bytes py_int (HttpResponse r)
      = Raise ValueError).
Proof.
  intros Hs Hj Hb Hmb Hp.
  assert (Hreq : req "GET" SETTINGS_PATH (HttpResponse r) = Return r).
  { unfold req. replace (300 <=? status_code r) with false
      by (symmetry; apply Z.leb_gt; exact Hs). reflexivity. }
  split; intros Hsel.
  - unfold LimitsV3.get_http_max_content_length_bytes.
    rewrite Hreq. cbn [bind]. rewrite Hj. cbn [bind].
    apply (limit_v3_unparsable py_int js s Hb Hmb Hp Hsel).
  - unfold LimitsV4.get_http_max_content_length_bytes.
    rewrite Hreq. cbn [bind]. rewrite Hj. cbn [bind].
    apply (limit_v4_unparsable py_int js s Hb Hmb Hp Hsel).
Qed.

Lemma unparsable_limit_raises_witness :
  LimitsV3.get_http_max_content_length_bytes decimal_int
    (settings_reply (http_setting "defaults" "1gb"))
  = Raise ValueError
  /\ LimitsV4.get_http_max_content_length_bytes decimal_int
       (settings_reply (http_setting "defaults" "1gb"))
     = Raise ValueError.
Proof.
  destruct (unparsable_limit_raises decimal_int
              (mkResponse 200 "" (Return (http_setting "defaults" "1gb")))
              (http_setting "defaults" "1gb") "1gb") as [H3 H4];
    try reflexivity.
  split; [apply H3|apply H4]; right; eexists;
    (split; [reflexivity|]); (split; [reflexivity|]); right; eexists;
    (split; [reflexivity|]); (split; [reflexivity|]); reflexivity.
Defined.

Example limit_discovery_examples :
  LimitsV3.get_http_max_content_length_bytes decimal_int
    (settings_reply (http_setting "defaults" "100mb")) = Return (100 * MiB)
  /\ LimitsV4.get_http_max_content_length_bytes decimal_int
       (settings_reply (http_setting "defaults" "100mb")) = Return (100 * MiB)
  /\ LimitsV3.get_http_max_content_length_bytes decimal_int
       (settings_reply (http_setting "persistent" "5000b")) = Return 5000
  /\ LimitsV3.get_http_max_content_length_bytes decimal_int
       (settings_reply (JObj [])) = Return (100 * MiB)
  /\ LimitsV4.get_http_max_content_length_bytes decimal_int
       (settings_reply (JObj [])) = Return (100 * MiB)
  /\ LimitsV3.get_http_max_content_length_bytes decimal_int
       (settings_reply (http_setting "persistent" "1gb")) = Raise ValueError
  /\ LimitsV4.get_http_max_content_length_bytes decimal_int
       (settings_reply (http_setting "transient" "1gb")) = Raise ValueError
  /\ LimitsV3.get_http_max_content_length_bytes decimal_int
       (settings_reply (http_setting "defaults" "1gb")) = Raise ValueError
  /\ LimitsV4.get_http_max_content_length_bytes decimal_int
       (settings_reply (http_setting "defaults" "1kb")) = Raise ValueError.
Proof. repeat split. Qed.
